(** * TrufflehogAutomation: a shallow embedding of [match.py] and [upload.py]

    The two scripts synchronise spreadsheets through the gspread client.
    The embedding keeps the scripts' structure: Python helpers first
    ([str.strip], [list.index], slicing, [range]), then a small
    trace-and-error monad for the remote worksheet calls, then one module per
    script with its functions under their source names.

    Conventions.
    - A Python [str] is a [string]; each character stands for one code
      point below 256.
    - A Python [int] is a [Z] where the source can see a negative value
      ([col_letter]) and a [nat] where it is a length, an offset or a row.
    - A remote call is recorded in a trace, in issue order, and is taken to
      succeed; what a read returns is an input of the model.
    - Output on stdout ([print], the progress bar) is left out; the text of
      a [sys.exit] is kept as the source writes it. *)

From Stdlib Require Import ZArith Ascii Lia PrimFloat.
From stdpp Require Import base tactics option list strings pretty gmap fin_maps.

#[local] Set Warnings "-abstract-large-number".


(** ** Python helpers *)

Module Py.

(** [str.isspace] on one code point below 256: TAB..CR, FS..US, space,
    NEL (0x85) and NBSP (0xA0). *)
Definition isspace (c : ascii) : bool :=
  let n := nat_of_ascii c in
  (((9 <=? n) && (n <=? 13)) || ((28 <=? n) && (n <=? 32))
   || (n =? 133) || (n =? 160))%nat.

(** [s.lstrip()] *)
Fixpoint lstrip (s : string) : string :=
  match s with
  | EmptyString => EmptyString
  | String c s' => if isspace c then lstrip s' else s
  end.

(** [s.rstrip()]: the characters are kept up to the last one that is not
    white space. *)
Fixpoint rstrip (s : string) : string :=
  match s with
  | EmptyString => EmptyString
  | String c s' =>
      match rstrip s' with
      | EmptyString => if isspace c then EmptyString else String c EmptyString
      | r => String c r
      end
  end.

(** [s.strip()] *)
Definition strip (s : string) : string := rstrip (lstrip s).

(** Truth value of a [str]: non-empty. *)
Definition str_truthy (s : string) : bool :=
  match s with EmptyString => false | _ => true end.

(** [l.index(x)]: position of the first occurrence, [None] for
    [ValueError]. *)
Fixpoint index {A} `{EqDecision A} (x : A) (l : list A) : option nat :=
  match l with
  | [] => None
  | y :: l' => if decide (y = x) then Some 0 else S <$> index x l'
  end.

(** [x in l] *)
Definition contains {A} `{EqDecision A} (x : A) (l : list A) : bool :=
  bool_decide (x ∈ l).

(** [l[i:j]] for [0 <= i <= j]. *)
Definition slice {A} (l : list A) (i j : nat) : list A :=
  take (j - i) (drop i l).

(** [range(start, stop, step)] for a positive [step], as the list of the
    values it yields; its length is [ceil((stop - start) / step)]. *)
Definition range (start stop step : nat) : list nat :=
  (λ k, start + k * step) <$> seq 0 ((stop - start + (step - 1)) / step).

(** [str(n)] as an f-string renders a non-negative [int]. *)
Definition str_of_nat (n : nat) : string := pretty n.

End Py.

(** ** Outcomes and the trace monad *)

(** Exceptions the scripts can die with. *)
Inductive exn :=
  AttributeError | IndexError | KeyError | TypeError | ValueError.

(** How a computation ends: a value, [sys.exit(msg)], an exception that
    nothing catches, or a loop that never finishes. *)
Inductive outcome (A : Type) :=
| Ok (a : A)
| Exit (msg : string)
| Raise (e : exn)
| Hang.
Arguments Ok {A} a.
Arguments Exit {A} msg.
Arguments Raise {A} e.
Arguments Hang {A}.

Section Run.
Context {C : Type}.

(** A computation issues remote calls [C], in order, and ends. *)
Definition run (A : Type) : Type := list C * outcome A.

Definition ret {A} (a : A) : run A := ([], Ok a).
Definition emit (c : C) : run unit := ([c], Ok tt).
Definition sys_exit {A} (msg : string) : run A := ([], Exit msg).
Definition raise {A} (e : exn) : run A := ([], Raise e).
Definition hang {A} : run A := ([], Hang).

Definition bind {A B} (m : run A) (f : A → run B) : run B :=
  match m with
  | (t, Ok a) => let '(t', r) := f a in (t ++ t', r)
  | (t, Exit msg) => (t, Exit msg)
  | (t, Raise e) => (t, Raise e)
  | (t, Hang) => (t, Hang)
  end.

(** [for x in xs: s = body(s, x)]: a loop whose body updates the local
    state [s]. *)
Fixpoint for_fold {X S} (xs : list X) (body : S → X → run S) (s : S)
  : run S :=
  match xs with
  | [] => ret s
  | x :: xs' => bind (body s x) (for_fold xs' body)
  end.

(** [for x in xs: body(x)] *)
Definition for_each {X} (xs : list X) (body : X → run unit) : run unit :=
  for_fold xs (λ _, body) tt.

Definition trace {A} (m : run A) : list C := m.1.
Definition result {A} (m : run A) : outcome A := m.2.
End Run.

Global Instance run_ret {C} : MRet (@run C) := λ A, ret.
Global Instance run_bind {C} : MBind (@run C) := λ A B f m, bind m f.

(** ** [match.py] *)

Module Match.

(** *** CONFIG *)
Definition Q4_LINK_HEADER : string := "Github Links".
Definition Q4_STATUS_COL_N : nat := 13.
Definition Q2_LINK_HEADER : string := "Link".
Definition Q2_STATUS_HEADER : string := "Validity status".
Definition UPLOAD_CHUNK : nat := 2000.

(** *** [col_letter] *)

(** [chr(n)] for [0 <= n < 256]. *)
Definition chr (n : Z) : ascii := ascii_of_nat (Z.to_nat n).

(** The [while idx_1based:] loop, with [res] as accumulator.  [fuel] bounds
    the number of iterations; [None] says the bound was reached with the
    loop still running. *)
Fixpoint col_letter_loop (fuel : nat) (idx_1based : Z) (res : string)
  : option string :=
  if (idx_1based =? 0)%Z then Some res
  else
    match fuel with
    | O => None
    | S fuel' =>
        let '(idx_1based', rem) := Z.div_eucl (idx_1based - 1) 26 in
        col_letter_loop fuel' idx_1based' (String (chr (65 + rem)) res)
    end.

(** [col_letter(idx_1based)].  An index [n >= 0] needs at most [n]
    iterations ([col_letter_loop_enough]); below zero no bound is enough
    ([col_letter_loop_negative]). *)
Definition col_letter (idx_1based : Z) : option string :=
  col_letter_loop (Z.to_nat idx_1based) idx_1based "".

(** A label: one or more letters of ['A'..'Z']. *)
Definition is_upper (c : ascii) : bool :=
  ((65 <=? nat_of_ascii c) && (nat_of_ascii c <=? 90))%nat.

Fixpoint all_upper (s : string) : bool :=
  match s with
  | EmptyString => true
  | String c s' => is_upper c && all_upper s'
  end.

Definition is_label (s : string) : bool := Py.str_truthy s && all_upper s.

(** The number a label stands for in bijective base 26, read left to
    right; used to invert [col_letter]. *)
Fixpoint letters_value_from (acc : Z) (s : string) : Z :=
  match s with
  | EmptyString => acc
  | String c s' =>
      letters_value_from (acc * 26 + (Z.of_nat (nat_of_ascii c) - 64)) s'
  end.

Definition letters_value (s : string) : Z := letters_value_from 0 s.

(** *** Worksheets and remote calls *)

Inductive sheet := Q4 | Q2.

(** A worksheet handle: which sheet it is, and the block of cells a
    [get_all_values()] on it returns. *)
Record worksheet := { ws_sheet : sheet; ws_cells : list (list string) }.

(** The calls [match.py] makes on the remote service. *)
Inductive call :=
| Authorize
| OpenWorksheet (s : sheet)
| GetAllValues (s : sheet)
| AddCols (s : sheet) (n : nat)
| UpdateCell (s : sheet) (row col : nat) (value : string)
| Update (s : sheet) (values : list (list (option string))) (rng : string).

(** The calls that change a grid. *)
Definition is_mutation (c : call) : bool :=
  match c with
  | AddCols _ _ | UpdateCell _ _ _ _ | Update _ _ _ => true
  | Authorize | OpenWorksheet _ | GetAllValues _ => false
  end.

(** Computations of [match.py]. *)
Abbreviation io := (@run call).

Definition get_all_values (ws : worksheet) : io (list (list string)) :=
  emit (GetAllValues (ws_sheet ws));; mret (ws_cells ws).

Definition add_cols (ws : worksheet) (n : nat) : io unit :=
  emit (AddCols (ws_sheet ws) n).

Definition update_cell (ws : worksheet) (row col : nat) (value : string)
  : io unit :=
  emit (UpdateCell (ws_sheet ws) row col value).

Definition update (ws : worksheet) (values : list (list (option string)))
    (rng : string) : io unit :=
  emit (Update (ws_sheet ws) values rng).

(** *** The in-memory table *)

(** A [pandas.DataFrame] over the default index [0..n-1]: the column
    labels and the rows.  A cell is [Some s] for a string and [None] for
    the missing value pandas fills in. *)
Record DataFrame := {
  columns : list string;
  rows : list (list (option string));
}.

(** [len(df)] *)
Definition df_len (df : DataFrame) : nat := length (rows df).

(** [pd.DataFrame(data, columns=header)] on a list of lists: with no row
    the table is empty; otherwise the widest row must be as wide as the
    header (a [ValueError] if not) and a shorter row is completed with
    missing values. *)
Definition pd_DataFrame (data : list (list string)) (header : list string)
  : io DataFrame :=
  if bool_decide (data = [] ∨ max_list (length <$> data) = length header)
  then
    mret {| columns := header;
            rows := (λ r, (Some <$> r)
                          ++ replicate (length header - length r) None)
                    <$> data |}
  else raise ValueError.

(** [ws_to_df] *)
Definition ws_to_df (ws : worksheet) : io DataFrame :=
  rows ← get_all_values ws;
  match rows with
  | [] => raise IndexError
  | header :: data => pd_DataFrame data header
  end.

(** Where a label sits in the header: the positions carrying it, in
    order, counted from [n] for the first column. *)
Fixpoint positions_from (n : nat) (label : string) (header : list string)
  : list nat :=
  match header with
  | [] => []
  | h :: header' =>
      if decide (h = label) then n :: positions_from (S n) label header'
      else positions_from (S n) label header'
  end.

Definition positions (label : string) (header : list string) : list nat :=
  positions_from 0 label header.

(** [df.columns.get_loc(label)] for a label that is present: an integer
    when the label occurs once, a slice or a mask when it is repeated. *)
Inductive loc := LocInt (i : nat) | LocMulti.

Definition get_loc (header : list string) (label : string) : io loc :=
  match positions label header with
  | [] => raise KeyError
  | [i] => mret (LocInt i)
  | _ => mret LocMulti
  end.

(** [df[label] = value]: a label that is absent becomes a new last column
    holding [value] in every row; one that is present has its column(s)
    overwritten. *)
Definition df_set_column (df : DataFrame) (label : string) (value : string)
  : DataFrame :=
  match positions label (columns df) with
  | [] => {| columns := columns df ++ [label];
             rows := (λ r, r ++ [Some value]) <$> rows df |}
  | ps => {| columns := columns df;
             rows := (λ r, foldr (λ j r, <[j := Some value]> r) r ps)
                     <$> rows df |}
  end.

(** [row.get(label, default).strip()] on a row of [iterrows()]: a label
    that is absent reads as [default]; a missing cell ([None]) and a
    repeated label (a [Series]) have no [strip]. *)
Definition row_get_strip (header : list string) (row : list (option string))
    (label default : string) : io string :=
  match positions label header with
  | [] => mret (Py.strip default)
  | [j] =>
      match row !! j with
      | Some (Some s) => mret (Py.strip s)
      | _ => raise AttributeError
      end
  | _ => raise AttributeError
  end.

(** [df.at[idx, label] = value] for a label of the header: the cell of
    row [idx] is overwritten in every column carrying the label. *)
Definition df_set_at (df : DataFrame) (idx : nat) (label : string)
    (value : string) : DataFrame :=
  {| columns := columns df;
     rows := alter (λ r, foldr (λ j r, <[j := Some value]> r) r
                           (positions label (columns df)))
               idx (rows df) |}.

(** [df[label].tolist()]: the cells of the one column carrying the
    label. *)
Definition df_column (df : DataFrame) (label : string)
  : io (list (option string)) :=
  match positions label (columns df) with
  | [] => raise KeyError
  | [j] => mret ((λ r, mjoin (r !! j)) <$> rows df)
  | _ => raise AttributeError
  end.

(** *** [build_q4_mapping] *)

(** The body of [for r in rows[1:]]. *)
Definition mapping_step (link_idx : nat) (mapping : gmap string string)
    (r : list string) : io (gmap string string) :=
  if bool_decide (length r ≤ max link_idx Q4_STATUS_COL_N) then mret mapping
  else
    match r !! link_idx, r !! Q4_STATUS_COL_N with
    | Some link, Some status =>
        let link := Py.strip link in
        let status := Py.strip status in
        if Py.str_truthy link then mret (<[link := status]> mapping)
        else mret mapping
    | _, _ => raise IndexError
    end.

Definition build_q4_mapping (ws : worksheet) : io (gmap string string) :=
  rows ← get_all_values ws;
  match rows with
  | [] => raise IndexError
  | header :: _ =>
      match Py.index Q4_LINK_HEADER header with
      | None =>
          sys_exit "[ERROR] Column 'Github Links' not found in Q4 sheet."
      | Some link_idx =>
          for_fold (drop 1 rows) (mapping_step link_idx) ∅
      end
  end.

(** *** [ensure_status_column] *)

Definition ensure_status_column (ws_q2 : worksheet) (df_q2 : DataFrame)
  : io (DataFrame * loc) :=
  if Py.contains Q2_STATUS_HEADER (columns df_q2) then
    i ← get_loc (columns df_q2) Q2_STATUS_HEADER;
    mret (df_q2, i)
  else
    add_cols ws_q2 1;;
    let new_col_idx_1 := length (columns df_q2) + 1 in
    update_cell ws_q2 1 new_col_idx_1 Q2_STATUS_HEADER;;
    let df_q2 := df_set_column df_q2 Q2_STATUS_HEADER "" in
    mret (df_q2, LocInt (new_col_idx_1 - 1)).

(** *** [main]: copy statuses on link match *)

(** The body of [for idx, row in df_q2.iterrows()], on the pair of the
    table and the match counter. *)
Definition merge_step (header : list string)
    (link_to_status : gmap string string) (st : DataFrame * nat)
    (it : nat * list (option string)) : io (DataFrame * nat) :=
  let '(df_q2, matches) := st in
  let '(idx, row) := it in
  link ← row_get_strip header row Q2_LINK_HEADER "";
  match link_to_status !! link with
  | Some status => mret (df_set_at df_q2 idx Q2_STATUS_HEADER status,
                         matches + 1)
  | None => mret (df_q2, matches)
  end.

Definition merge_statuses (df_q2 : DataFrame)
    (link_to_status : gmap string string) : io (DataFrame * nat) :=
  for_fold (imap pair (rows df_q2))
    (merge_step (columns df_q2) link_to_status) (df_q2, 0).

(** *** [main]: push updates in chunks *)

(** [f"{colLtr}{start_row}:{colLtr}{end_row}"] *)
Definition range_address (colLtr : string) (start_row end_row : nat)
  : string :=
  colLtr +:+ Py.str_of_nat start_row +:+ ":"
  +:+ colLtr +:+ Py.str_of_nat end_row.

Definition push_updates (ws_q2 : worksheet) (colLtr : string)
    (df_q2 : DataFrame) (chunk : nat) : io unit :=
  let total := df_len df_q2 in
  column ← df_column df_q2 Q2_STATUS_HEADER;
  let values := (λ v, [v]) <$> column in
  if bool_decide (chunk = 0) then raise ValueError
  else
    for_each (Py.range 0 total chunk) (λ i,
      let chunk_vals := Py.slice values i (i + chunk) in
      let start_row := i + 2 in
      let end_row := start_row + length chunk_vals - 1 in
      let rng := range_address colLtr start_row end_row in
      update ws_q2 chunk_vals rng).

(** *** [main] *)

(** The inputs of a run: whether the key file is there, and the cells of
    the two worksheets.  A duplicated status label makes the run die at
    [status_col_zero + 1] ([TypeError] on a slice) or, for a mask, at
    [while idx_1based:] ([ValueError]), with no remote call in between; the
    model ends it at the first. *)
Definition main (key_exists : bool) (q4_cells q2_cells : list (list string))
  : io unit :=
  if negb key_exists then
    sys_exit "[FATAL] Service-account key file not found."
  else
    emit Authorize;;
    emit (OpenWorksheet Q4);;
    let ws_q4 := {| ws_sheet := Q4; ws_cells := q4_cells |} in
    link_to_status ← build_q4_mapping ws_q4;
    emit (OpenWorksheet Q2);;
    let ws_q2 := {| ws_sheet := Q2; ws_cells := q2_cells |} in
    df_q2 ← ws_to_df ws_q2;
    '(df_q2, status_col_zero) ← ensure_status_column ws_q2 df_q2;
    status_col_one ← match status_col_zero with
                     | LocInt i => mret (i + 1)
                     | LocMulti => raise TypeError
                     end;
    '(df_q2, matches) ← merge_statuses df_q2 link_to_status;
    colLtr ← match col_letter (Z.of_nat status_col_one) with
             | Some s => mret s
             | None => hang
             end;
    push_updates ws_q2 colLtr df_q2 UPLOAD_CHUNK.

End Match.

(** ** [upload.py] *)

Module Upload.

(** *** CONFIGURATION *)
Definition SERVICE_ACCOUNT_KEY : string := "aalok-spreadsheet_credentials.json".
Definition WORKSHEET_NAME : string := "Trufflehog Data".
Definition UPLOAD_CHUNK : nat := 1000.

(** *** Decoded JSON *)

(** What [json.loads] returns: [None], a [bool], an [int], a [float], a
    [str], a [list] or a [dict] (its items in insertion order, keys
    distinct). *)
#[warning="-register-all"]
Inductive json :=
| JNull
| JBool (b : bool)
| JInt (z : Z)
| JFloat (f : float)
| JStr (s : string)
| JList (l : list json)
| JDict (items : list (string * json)).

(** Truth value, as [or] tests it. *)
Definition truthy (v : json) : bool :=
  match v with
  | JNull => false
  | JBool b => b
  | JInt z => negb (z =? 0)%Z
  | JFloat f => negb (PrimFloat.eqb f 0%float)
  | JStr s => Py.str_truthy s
  | JList l => match l with [] => false | _ => true end
  | JDict items => match items with [] => false | _ => true end
  end.

(** Lookup in the items of a [dict]. *)
Fixpoint items_get (items : list (string * json)) (key : string)
  : option json :=
  match items with
  | [] => None
  | (k, v) :: items' => if decide (k = key) then Some v else items_get items' key
  end.

(** *** Remote calls *)

Inductive call :=
| Authorize
| OpenByKey
| GetWorksheet
| AddWorksheet
| Clear
| AppendRow (values : list string)
| AppendRows (values : list (list (option json))).

(** Computations of [upload.py]. *)
Abbreviation io := (@run call).

(** [obj.get(key, default)]: only a [dict] has [get]. *)
Definition py_get (obj : json) (key : string) (dflt : json) : io json :=
  match obj with
  | JDict items => mret (default dflt (items_get items key))
  | _ => raise AttributeError
  end.

(** *** [parse_line] and [load_findings] *)

(** The names of the flat record, in the order the [dict] literal lists
    them. *)
Definition FIELDS : list string :=
  ["link"; "repository"; "commit"; "file"; "line"; "timestamp"; "email";
   "detector_name"; "detector_type"; "raw_secret"; "verified"].

(** A flat record: a [dict], as its items. *)
Definition record : Type := list (string * json).

Section Decoder.
(** [json.loads] on a [str]: the decoded document, or [None] for
    [JSONDecodeError]. *)
Variable json_loads : string → option json.

Definition parse_line (raw : string) : io (option record) :=
  let raw := Py.strip raw in
  if negb (Py.str_truthy raw) then mret None
  else
    match json_loads raw with
    | None => mret None
    | Some obj =>
        sm ← py_get obj "SourceMetadata" (JDict []);
        data ← py_get sm "Data" (JDict []);
        gh ← py_get data "Github" (JDict []);
        link ← py_get gh "link" JNull;
        repository ← py_get gh "repository" JNull;
        commit ← py_get gh "commit" JNull;
        file ← py_get gh "file" JNull;
        line ← py_get gh "line" JNull;
        timestamp ← py_get gh "timestamp" JNull;
        email ← py_get gh "email" JNull;
        detector_name ← py_get obj "DetectorName" JNull;
        detector_type ← py_get obj "DetectorType" JNull;
        raw_v1 ← py_get obj "Raw" JNull;
        raw_secret ← (if truthy raw_v1 then mret raw_v1
                      else py_get obj "RawV2" JNull);
        verified ← py_get obj "Verified" JNull;
        mret (Some [("link", link); ("repository", repository);
                    ("commit", commit); ("file", file); ("line", line);
                    ("timestamp", timestamp); ("email", email);
                    ("detector_name", detector_name);
                    ("detector_type", detector_type);
                    ("raw_secret", raw_secret); ("verified", verified)])
    end.

(** The body of [for raw in fh]; [if rec:] holds for a [dict] that is
    not empty. *)
Definition load_step (records : list record) (raw : string)
  : io (list record) :=
  rec ← parse_line raw;
  match rec with
  | Some ((_ :: _) as r) => mret (records ++ [r])
  | _ => mret records
  end.
End Decoder.

(** *** The table of findings *)

(** A [pandas.DataFrame] of findings: labels and rows; a cell is [None]
    where a record lacks the label. *)
Record DataFrame := {
  columns : list string;
  rows : list (list (option json));
}.

(** The labels of a list of [dict]s: their keys, in order of first
    appearance. *)
Definition add_key (acc : list string) (k : string) : list string :=
  if bool_decide (k ∈ acc) then acc else acc ++ [k].

Definition union_keys (records : list record) : list string :=
  foldl add_key [] (concat ((λ r : record, r.*1) <$> records)).

(** [pd.DataFrame(records)]: the labels and one row per record.  The
    cells are carried as decoded: the conversion pandas applies to a column
    when it infers its type (integers beside a missing value become floats,
    the missing value NaN) is left out; the labels, the number of rows and
    their width are those of the pandas table. *)
Definition pd_DataFrame (records : list record) : DataFrame :=
  let cols := union_keys records in
  {| columns := cols;
     rows := (λ r, (λ c, items_get r c) <$> cols) <$> records |}.

Section Loader.
Variable json_loads : string → option json.

(** [load_findings], on the lines of the input file. *)
Definition load_findings (lines : list string) : io DataFrame :=
  records ← for_fold lines (load_step json_loads) [];
  match records with
  | [] => sys_exit "[INFO] No findings found – exiting."
  | _ => mret (pd_DataFrame records)
  end.
End Loader.

(** *** Google Sheets helpers *)

(** [connect_sheet]; [ws_exists] says whether the worksheet is there, that
    is whether [sh.worksheet] returns rather than raising
    [WorksheetNotFound]. *)
Definition connect_sheet (ws_exists : bool) : io unit :=
  emit Authorize;;
  emit OpenByKey;;
  emit GetWorksheet;;
  if ws_exists then mret tt else emit AddWorksheet.

(** [upload_dataframe], for a chunk size. *)
Definition upload_dataframe_by (chunk : nat) (df : DataFrame) : io unit :=
  emit Clear;;
  emit (AppendRow (columns df));;
  let total := length (rows df) in
  if bool_decide (chunk = 0) then raise ValueError
  else
    for_each (Py.range 0 total chunk) (λ i,
      let chunk_rows := Py.slice (rows df) i (i + chunk) in
      emit (AppendRows chunk_rows)).

Definition upload_dataframe : DataFrame → io unit :=
  upload_dataframe_by UPLOAD_CHUNK.

(** *** [main] *)

Definition main (json_loads : string → option json) (key_exists : bool)
    (lines : list string) (ws_exists : bool) : io unit :=
  if negb key_exists then
    sys_exit
      "[FATAL] Service-account key 'aalok-spreadsheet_credentials.json' not found."
  else
    df ← load_findings json_loads lines;
    connect_sheet ws_exists;;
    upload_dataframe df.

(** *** An in-memory worksheet *)

(** The values of a worksheet, row by row. *)
Definition grid : Type := list (list (option json)).

(** What a call does to the values: [clear] empties the sheet, and the two
    appends place their rows after the last row. *)
Definition apply_call (g : grid) (c : call) : grid :=
  match c with
  | Clear => []
  | AppendRow values => g ++ [(λ s, Some (JStr s)) <$> values]
  | AppendRows values => g ++ values
  | Authorize | OpenByKey | GetWorksheet | AddWorksheet => g
  end.

Definition apply_trace (g : grid) (t : list call) : grid :=
  foldl apply_call g t.

(** A decoder for the fragment of JSON made of [null], [true], [false],
    the empty list and the empty object; every other text is refused.  It
    stands in for [json.loads] in examples. *)
Definition loads_atoms (s : string) : option json :=
  if decide (s = "null") then Some JNull
  else if decide (s = "true") then Some (JBool true)
  else if decide (s = "false") then Some (JBool false)
  else if decide (s = "[]") then Some (JList [])
  else if decide (s = "{}") then Some (JDict [])
  else None.

End Upload.

(** * Definitions used to state the properties *)

(** ** Mapping Builder *)

(** A source row is kept when it is long enough for both the key index and
    the status index and its trimmed key is not empty. *)
Definition row_kept (link_idx : nat) (r : list string) : bool :=
  bool_decide (¬ (length r ≤ link_idx ∨ length r ≤ Match.Q4_STATUS_COL_N))
  && Py.str_truthy (Py.strip (r !!! link_idx)).

(** The (trimmed key, trimmed status) pair of a row. *)
Definition row_entry (link_idx : nat) (r : list string) : string * string :=
  (Py.strip (r !!! link_idx), Py.strip (r !!! Match.Q4_STATUS_COL_N)).

(** The mapping as the specification words it: the pairs of the kept rows,
    a later row winning over an earlier one with the same key. *)
Definition mapping_of_rows (link_idx : nat) (data : list (list string))
  : gmap string string :=
  list_to_map
    (reverse (row_entry link_idx
              <$> filter (λ r, row_kept link_idx r = true) data)).

(** No kept row of [post] has the key [k]. *)
Definition later_rows_miss (link_idx : nat) (k : string)
    (post : list (list string)) : Prop :=
  Forall (λ r, row_kept link_idx r = true → (row_entry link_idx r).1 ≠ k)
         post.

(** The loop body of [build_q4_mapping] as a function on mappings. *)
Definition mapping_step_pure (link_idx : nat) (m : gmap string string)
    (r : list string) : gmap string string :=
  if row_kept link_idx r
  then <[(row_entry link_idx r).1 := (row_entry link_idx r).2]> m
  else m.

(** ** Schema Reconciler *)

(** Two calls in succession, the second on the table the first returns:
    the two indices and the final table. *)
Definition ensure_twice (ws_q2 : Match.worksheet) (df_q2 : Match.DataFrame)
  : Match.io (Match.loc * Match.loc * Match.DataFrame) :=
  '(df1, first) ← Match.ensure_status_column ws_q2 df_q2;
  '(df2, second) ← Match.ensure_status_column ws_q2 df1;
  mret (first, second, df2).

(** ** Chunked Batch Writer *)

(** The block of values and the range address an [update] call carries. *)
Definition call_values (c : Match.call) : list (list (option string)) :=
  match c with Match.Update _ values _ => values | _ => [] end.

Definition call_range (c : Match.call) : string :=
  match c with Match.Update _ _ rng => rng | _ => "" end.

(** The call for the chunk that starts at value-offset [i]. *)
Definition chunk_call (s : Match.sheet) (colLtr : string)
    (vs : list (option string)) (c i : nat) : Match.call :=
  let chunk := take c (drop i vs) in
  Match.Update s ((λ v, [v]) <$> chunk)
    (Match.range_address colLtr (i + 2) (i + 2 + length chunk - 1)).

(** ** Merge Engine *)

(** The value of a row under a label: the cell at the label's position in
    the header, [None] when the label is absent or the cell is missing. *)
Definition cell (header : list string) (row : list (option string))
    (label : string) : option string :=
  j ← Py.index label header; mjoin (row !! j).

(** The trimmed key of a destination row; an absent key column reads as
    the empty string. *)
Definition row_key (header : list string) (row : list (option string))
  : string :=
  Py.strip (default "" (cell header row Match.Q2_LINK_HEADER)).

(** When the table has a key column, the row holds a string in it. *)
Definition key_readable (header : list string) (row : list (option string))
  : Prop :=
  Match.Q2_LINK_HEADER ∈ header →
  is_Some (cell header row Match.Q2_LINK_HEADER).

(** A row after the merge, as the specification words it: the target cell
    takes the mapped value when the trimmed key is in the mapping, and the
    row is left as it is otherwise. *)
Definition merged_row (header : list string)
    (link_to_status : gmap string string) (row : list (option string))
  : list (option string) :=
  match link_to_status !! row_key header row,
        Py.index Match.Q2_STATUS_HEADER header with
  | Some status, Some j => <[j := Some status]> row
  | _, _ => row
  end.

(** The trimmed key of the row is in the mapping. *)
Definition matched (header : list string)
    (link_to_status : gmap string string) (row : list (option string))
  : Prop :=
  is_Some (link_to_status !! row_key header row).

(** ** Record Flattener *)

(** The decoded document is a [dict]. *)
Definition is_dict (v : Upload.json) : bool :=
  match v with Upload.JDict _ => true | _ => false end.

(** ** Whole runs of [match.py] *)

(** The sheet a call is made on. *)
Definition call_sheet (c : Match.call) : option Match.sheet :=
  match c with
  | Match.Authorize => None
  | Match.OpenWorksheet s | Match.GetAllValues s | Match.AddCols s _
  | Match.UpdateCell s _ _ _ | Match.Update s _ _ => Some s
  end.

(** A call that changes a grid changes the destination sheet. *)
Definition writes_q2_only (c : Match.call) : Prop :=
  Match.is_mutation c = true → call_sheet c = Some Match.Q2.

(** Every call of a computation satisfies [P], and the computation does
    not hang. *)
Definition safe {C A} (P : C → Prop) (m : @run C A) : Prop :=
  Forall P (trace m) ∧ result m ≠ Hang.

(** A table as the data model has it: labels pairwise distinct, one cell
    per label in every row. *)
Definition table_wf (df : Match.DataFrame) : Prop :=
  NoDup (Match.columns df)
  ∧ Forall (λ row, length row = length (Match.columns df)) (Match.rows df).

(** The status a row holds after the merge: the mapped value for its
    trimmed key, or the value it had. *)
Definition status_after (header : list string)
    (link_to_status : gmap string string) (row : list (option string))
  : option string :=
  match link_to_status !! row_key header row with
  | Some status => Some status
  | None => cell header row Match.Q2_STATUS_HEADER
  end.

(** ** Findings *)

(** [d.get(key, {})] read as a [dict]: the items of the value, or of the
    default when the key is absent; [None] when the value is not a
    [dict]. *)
Definition sub_dict (items : list (string * Upload.json)) (key : string)
  : option (list (string * Upload.json)) :=
  match default (Upload.JDict []) (Upload.items_get items key) with
  | Upload.JDict sub => Some sub
  | _ => None
  end.

(** The items of [obj["SourceMetadata"]["Data"]["Github"]], absent
    segments read as empty; [None] when [obj] or a segment that is present
    is not a [dict]. *)
Definition github_items (obj : Upload.json)
  : option (list (string * Upload.json)) :=
  match obj with
  | Upload.JDict items =>
      sm ← sub_dict items "SourceMetadata";
      data ← sub_dict sm "Data";
      sub_dict data "Github"
  | _ => None
  end.

(** [d.get(key)] on the items of a [dict]. *)
Definition get_or_null (items : list (string * Upload.json)) (key : string)
  : Upload.json :=
  default Upload.JNull (Upload.items_get items key).

(** The flat record of a finding with top-level items [top] and Github
    items [gh]. *)
Definition flat_record (top gh : list (string * Upload.json))
  : Upload.record :=
  [("link", get_or_null gh "link");
   ("repository", get_or_null gh "repository");
   ("commit", get_or_null gh "commit");
   ("file", get_or_null gh "file");
   ("line", get_or_null gh "line");
   ("timestamp", get_or_null gh "timestamp");
   ("email", get_or_null gh "email");
   ("detector_name", get_or_null top "DetectorName");
   ("detector_type", get_or_null top "DetectorType");
   ("raw_secret", if Upload.truthy (get_or_null top "Raw")
                  then get_or_null top "Raw" else get_or_null top "RawV2");
   ("verified", get_or_null top "Verified")].

(** The record a line contributes to the table: [None] for a line that is
    skipped and for one that raises. *)
Definition record_of (json_loads : string → option Upload.json)
    (raw : string) : option Upload.record :=
  match result (Upload.parse_line json_loads raw) with
  | Ok (Some ((_ :: _) as r)) => Some r
  | _ => None
  end.

(** The line makes [parse_line] raise. *)
Definition line_raises (json_loads : string → option Upload.json)
    (raw : string) : Prop :=
  Upload.parse_line json_loads raw = ([], Raise AttributeError).

(** The calls of [connect_sheet]. *)
Definition connect_calls (ws_exists : bool) : list Upload.call :=
  [Upload.Authorize; Upload.OpenByKey; Upload.GetWorksheet]
  ++ (if ws_exists then [] else [Upload.AddWorksheet]).

(** * The trace monad *)

Section RunFacts.
Context {C : Type}.

(** A loop whose body issues no call and cannot fail is a left fold. *)
Lemma for_fold_pure {X S} (xs : list X) (body : S → X → @run C S)
    (g : S → X → S) s :
  (∀ s x, body s x = mret (g s x)) →
  for_fold xs body s = mret (foldl g s xs).
Proof.
  intros Hb. revert s. induction xs as [|x xs IH]; intros s; [done|].
  simpl. rewrite Hb. unfold mret, run_ret, ret. simpl.
  rewrite IH. done.
Qed.

Lemma run_bind_ret {A B} (a : A) (f : A → @run C B) : mret a ≫= f = f a.
Proof.
  unfold mret, mbind, run_ret, run_bind, ret, bind. by destruct (f a).
Qed.

(** A loop whose body issues one call per item. *)
Lemma for_each_calls {X} (xs : list X) (body : X → @run C unit)
    (f : X → C) :
  (∀ x, body x = emit (f x)) → for_each xs body = (f <$> xs, Ok tt).
Proof.
  intros Hb. unfold for_each. induction xs as [|x xs IH]; [done|].
  simpl. rewrite Hb. simpl. by rewrite IH.
Qed.

(** A computation that ends normally had each of its parts end normally. *)
Lemma bind_Ok_inv {A B} (m : @run C A) (f : A → run B) t b :
  m ≫= f = (t, Ok b) →
  ∃ t1 a t2, m = (t1, Ok a) ∧ f a = (t2, Ok b) ∧ t = t1 ++ t2.
Proof.
  unfold mbind, run_bind, bind. destruct m as [t1 [a| | |]]; try done.
  destruct (f a) as [t2 r] eqn:E. intros [= <- ->]. by exists t1, a, t2.
Qed.

(** An invariant of the loop body holds after the loop. *)
Lemma for_fold_invariant {X S} (P : S → Prop) (xs : list X)
    (body : S → X → @run C S) s t s' :
  (∀ s x t s', P s → body s x = (t, Ok s') → P s') →
  P s → for_fold xs body s = (t, Ok s') → P s'.
Proof.
  intros Hb. revert s t. induction xs as [|x xs IH]; intros s t Hs; simpl.
  - by intros [= _ <-].
  - intros H. apply (bind_Ok_inv (body s x) (for_fold xs body)) in H
      as (t1 & a & t2 & H1 & H2 & _).
    eapply IH; [|exact H2]. by eapply Hb.
Qed.
(** Computations that issue no call. *)
Lemma bind_silent {A B} (m : @run C A) (f : A → run B) :
  trace m = [] → (∀ a, trace (f a) = []) → trace (m ≫= f) = [].
Proof.
  unfold trace, mbind, run_bind, bind. destruct m as [t [a| | |]]; simpl;
    intros -> Hf; try done.
  specialize (Hf a). by destruct (f a).
Qed.

Lemma for_fold_silent {X S} (xs : list X) (body : S → X → @run C S) s :
  (∀ s x, trace (body s x) = []) → trace (for_fold xs body s) = [].
Proof.
  intros Hb. revert s. induction xs as [|x xs IH]; intros s; [done|].
  simpl. by apply (bind_silent (body s x) (for_fold xs body)).
Qed.
End RunFacts.

(** * Column addressing: [col_letter] *)

Import Match.

(** Unfolds [+:+] on a string that starts with known characters. *)
Ltac str_simpl :=
  repeat first
    [ progress change (String.app (String ?a ?p) ?x)
        with (String a (String.app p x))
    | progress change (String.app EmptyString ?x) with x ].

Section ColLetter.
Local Open Scope Z_scope.

Lemma append_snoc p c res : (p +:+ String c "") +:+ res = p +:+ String c res.
Proof. induction p as [|a p IH]; str_simpl; [done|]. by f_equal. Qed.

Lemma letters_value_from_snoc acc p c :
  letters_value_from acc (p +:+ String c "")
  = letters_value_from acc p * 26 + (Z.of_nat (nat_of_ascii c) - 64).
Proof.
  revert acc. induction p as [|a p IH]; intros acc; str_simpl; simpl; [done|].
  apply IH.
Qed.

Lemma all_upper_snoc p c :
  all_upper (p +:+ String c "") = all_upper p && is_upper c.
Proof.
  induction p as [|a p IH]; str_simpl; simpl.
  - by rewrite andb_true_r.
  - rewrite IH. by rewrite andb_assoc.
Qed.

Lemma div_eucl_26 a q r :
  Z.div_eucl a 26 = (q, r) → a = 26 * q + r ∧ 0 ≤ r < 26.
Proof.
  intros E. pose proof (Z.div_eucl_eq a 26 ltac:(lia)) as H1.
  pose proof (Z.mod_pos_bound a 26 ltac:(lia)) as H2.
  unfold Z.modulo in H2. rewrite E in H1, H2. done.
Qed.

Lemma chr_code r :
  0 ≤ r < 26 → Z.of_nat (nat_of_ascii (chr (65 + r))) = 65 + r.
Proof.
  intros Hr. unfold chr. rewrite nat_ascii_embedding; lia.
Qed.

Lemma chr_upper r : 0 ≤ r < 26 → is_upper (chr (65 + r)) = true.
Proof.
  intros Hr. unfold is_upper. pose proof (chr_code r Hr).
  apply andb_true_iff. split; apply Nat.leb_le; lia.
Qed.

(** What the loop returns, whatever the bound that let it finish. *)
Lemma col_letter_loop_spec fuel n res s :
  0 ≤ n → col_letter_loop fuel n res = Some s →
  ∃ p, s = p +:+ res ∧ letters_value p = n ∧ all_upper p = true
       ∧ (1 ≤ n → p ≠ "").
Proof.
  revert n res s. induction fuel as [|fuel IH]; intros n res s Hn; simpl.
  - destruct (n =? 0) eqn:E; [|done]. intros [= <-].
    apply Z.eqb_eq in E. exists "". repeat split; [by rewrite E|lia].
  - destruct (n =? 0) eqn:E.
    { intros [= <-]. apply Z.eqb_eq in E. exists "".
      repeat split; [by rewrite E|lia]. }
    apply Z.eqb_neq in E.
    destruct (Z.div_eucl (n - 1) 26) as [q r] eqn:Ediv.
    apply div_eucl_26 in Ediv as [Hq Hr].
    intros Hs. apply IH in Hs as (p & -> & Hv & Hu & _); [|lia].
    exists (p +:+ String (chr (65 + r)) ""). split_and!.
    + by rewrite append_snoc.
    + unfold letters_value in *.
      rewrite letters_value_from_snoc, Hv, chr_code; lia.
    + by rewrite all_upper_snoc, Hu, chr_upper.
    + intros _. by destruct p.
Qed.

Lemma col_letter_loop_enough fuel n res :
  0 ≤ n → (Z.to_nat n ≤ fuel)%nat → is_Some (col_letter_loop fuel n res).
Proof.
  revert n res. induction fuel as [|fuel IH]; intros n res Hn Hf; simpl.
  - replace n with 0 by lia. done.
  - destruct (n =? 0) eqn:E; [done|]. apply Z.eqb_neq in E.
    destruct (Z.div_eucl (n - 1) 26) as [q r] eqn:Ediv.
    apply div_eucl_26 in Ediv as [Hq Hr]. apply IH; lia.
Qed.

Lemma col_letter_loop_negative fuel n res :
  n < 0 → col_letter_loop fuel n res = None.
Proof.
  revert n res. induction fuel as [|fuel IH]; intros n res Hn; simpl.
  - destruct (n =? 0) eqn:E; [|done]. apply Z.eqb_eq in E. lia.
  - destruct (n =? 0) eqn:E; [apply Z.eqb_eq in E; lia|].
    destruct (Z.div_eucl (n - 1) 26) as [q r] eqn:Ediv.
    apply div_eucl_26 in Ediv as [Hq Hr]. apply IH; lia.
Qed.

Lemma col_letter_loop_mono fuel n res s :
  col_letter_loop fuel n res = Some s →
  col_letter_loop (S fuel) n res = Some s.
Proof.
  revert n res. induction fuel as [|fuel IH]; intros n res; simpl.
  - destruct (n =? 0); done.
  - destruct (n =? 0); [done|].
    destruct (Z.div_eucl (n - 1) 26) as [q r]. intros H. by apply IH in H.
Qed.

Lemma col_letter_loop_le fuel fuel' n res s :
  (fuel ≤ fuel')%nat → col_letter_loop fuel n res = Some s →
  col_letter_loop fuel' n res = Some s.
Proof.
  induction 1 as [|fuel' _ IH]; [done|].
  intros H. by apply col_letter_loop_mono, IH.
Qed.

Lemma col_letter_value n s :
  0 ≤ n → col_letter n = Some s →
  letters_value s = n ∧ all_upper s = true ∧ (1 ≤ n → s ≠ "").
Proof.
  intros Hn H. apply col_letter_loop_spec in H as (p & -> & ? & ? & ?); [|done].
  assert (p +:+ "" = p) as ->; [|done].
  clear. induction p; str_simpl; [done|]. by f_equal.
Qed.
End ColLetter.

(** C5.  The one-based indices 1, 26, 27, 52 and 702 are rendered "A", "Z",
    "AA", "AZ" and "ZZ", and on the indices from 1 up [col_letter] returns a
    label and is injective: two indices with the same label are equal. *)
Theorem col_letter_table_injective :
  col_letter 1 = Some "A" ∧ col_letter 26 = Some "Z"
  ∧ col_letter 27 = Some "AA" ∧ col_letter 52 = Some "AZ"
  ∧ col_letter 702 = Some "ZZ"
  ∧ ∀ i j : Z, (1 ≤ i)%Z → (1 ≤ j)%Z →
      is_Some (col_letter i) ∧ (col_letter i = col_letter j → i = j).
Proof.
  split_and!; try reflexivity.
  intros i j Hi Hj.
  destruct (col_letter_loop_enough (Z.to_nat i) i "") as [s Hs]; [lia..|].
  destruct (col_letter_loop_enough (Z.to_nat j) j "") as [s' Hs']; [lia..|].
  fold (col_letter i) in Hs. fold (col_letter j) in Hs'.
  split; [by exists s|]. intros E.
  assert (s = s') as <- by congruence.
  apply col_letter_value in Hs as [Hi' _]; [|lia].
  apply col_letter_value in Hs' as [Hj' _]; [|lia].
  congruence.
Qed.

Lemma col_letter_table_injective_witness :
  (1 ≤ 27)%Z ∧ (1 ≤ 703)%Z
  ∧ is_Some (col_letter 27) ∧ (col_letter 27 = col_letter 703 → 27 = 703)%Z.
Proof.
  destruct col_letter_table_injective as (_ & _ & _ & _ & _ & H).
  split; [lia|]. split; [lia|]. apply H; lia.
Defined.

(** C6, as the code has it.  For every index from 1 up the loop finishes,
    within as many iterations as the index, and returns a label of one or
    more letters of 'A'..'Z'.  No index is refused with an error: at 0 the
    loop body never runs and the empty string is returned, and below 0 the
    loop never finishes, whatever the bound. *)
Theorem col_letter_domain :
  (∀ idx : Z, (1 ≤ idx)%Z →
     ∃ s, col_letter idx = Some s ∧ is_label s = true
          ∧ ∀ fuel, Z.to_nat idx ≤ fuel → col_letter_loop fuel idx "" = Some s)
  ∧ (∀ fuel, col_letter_loop fuel 0 "" = Some "")
  ∧ (∀ idx : Z, (idx < 0)%Z →
       ∀ fuel res, col_letter_loop fuel idx res = None).
Proof.
  split_and!.
  - intros idx Hidx.
    destruct (col_letter_loop_enough (Z.to_nat idx) idx "") as [s Hs];
      [lia..|].
    exists s. split; [done|]. split.
    + apply col_letter_value in Hs as (_ & Hu & Hne); [|lia].
      unfold is_label. rewrite Hu, andb_true_r.
      destruct s; [by destruct Hne|done].
    + intros fuel Hf. by eapply col_letter_loop_le.
  - by intros [|fuel].
  - intros idx Hidx fuel res. by apply col_letter_loop_negative.
Qed.

Lemma col_letter_domain_witness :
  (∃ s, col_letter 28 = Some s ∧ is_label s = true
        ∧ ∀ fuel, Z.to_nat 28 ≤ fuel → col_letter_loop fuel 28 "" = Some s)
  ∧ (∀ fuel res, col_letter_loop fuel (-5) res = None).
Proof.
  destruct col_letter_domain as (H1 & _ & H3).
  split; [apply H1; lia | apply H3; lia].
Defined.

(** C6, refuted as stated: index 0 is below 1 and [col_letter] returns the
    empty string for it, and at index -1 the loop is still running after
    any number of iterations; neither is an error. *)
Lemma col_letter_zero_returns :
  col_letter 0 = Some ""
  ∧ ∀ fuel, col_letter_loop fuel (-1) "" = None.
Proof.
  split; [reflexivity|].
  intros fuel. by apply col_letter_loop_negative.
Qed.

(** * Mapping Builder: [build_q4_mapping] *)

Lemma mapping_step_is_pure link_idx m r :
  mapping_step link_idx m r = mret (mapping_step_pure link_idx m r).
Proof.
  unfold mapping_step, mapping_step_pure, row_kept, row_entry.
  case_bool_decide as Hlen.
  - rewrite bool_decide_eq_false_2; [done|]. intros H. apply H. lia.
  - rewrite bool_decide_eq_true_2 by lia. simpl.
    destruct (lookup_lt_is_Some_2 r link_idx) as [link Hl]; [lia|].
    destruct (lookup_lt_is_Some_2 r Q4_STATUS_COL_N) as [status Hs]; [lia|].
    rewrite Hl, Hs.
    rewrite (list_lookup_total_correct _ _ _ Hl),
      (list_lookup_total_correct _ _ _ Hs).
    by destruct (Py.str_truthy (Py.strip link)).
Qed.

Lemma foldl_mapping_step_entries link_idx data m0 :
  foldl (mapping_step_pure link_idx) m0 data
  = foldl (λ m p, <[p.1 := p.2]> m) m0
      (row_entry link_idx <$> filter (λ r, row_kept link_idx r = true) data).
Proof.
  revert m0. induction data as [|r data IH]; intros m0; [done|].
  simpl. rewrite IH. unfold mapping_step_pure.
  rewrite filter_cons. destruct (row_kept link_idx r) eqn:E.
  - by rewrite decide_True.
  - by rewrite decide_False.
Qed.

Lemma foldl_insert_list_to_map (l : list (string * string)) :
  foldl (λ m p, <[p.1 := p.2]> m) (∅ : gmap string string) l
  = list_to_map (reverse l).
Proof.
  induction l as [|p l IH] using rev_ind; [done|].
  rewrite foldl_app, reverse_app. simpl. by rewrite IH.
Qed.

Lemma foldl_mapping_step_lookup link_idx data m0 k v :
  foldl (mapping_step_pure link_idx) m0 data !! k = Some v ↔
    (∃ pre r post, data = pre ++ r :: post ∧ row_kept link_idx r = true
       ∧ row_entry link_idx r = (k, v) ∧ later_rows_miss link_idx k post)
    ∨ (m0 !! k = Some v ∧ later_rows_miss link_idx k data).
Proof.
  revert m0. induction data as [|r data IH]; intros m0.
  - simpl. split.
    + intros H. right. split; [done|]. constructor.
    + intros [(pre & r & post & H & _)|[H _]]; [|done].
      by destruct pre.
  - simpl. rewrite IH. unfold mapping_step_pure at 1. split.
    + intros [(pre & r' & post & -> & Hk & He & Hp)|[Hm Hp]].
      * left. exists (r :: pre), r', post. done.
      * destruct (row_kept link_idx r) eqn:Hk.
        -- destruct (decide ((row_entry link_idx r).1 = k)) as [Heq|Hne].
           ++ left. exists [], r, data. split_and!; [done..| |done].
              rewrite <-Heq, lookup_insert_eq in Hm.
              destruct (row_entry link_idx r); simpl in *. congruence.
           ++ right. rewrite lookup_insert_ne in Hm by done.
              split; [done|]. by constructor.
        -- right. split; [done|]. constructor; [|done]. congruence.
    + intros [(pre & r' & post & Hd & Hk & He & Hp)|[Hm Hp]].
      * destruct pre as [|r0 pre]; simpl in Hd.
        -- injection Hd as -> ->. right. rewrite Hk, He. simpl.
           by rewrite lookup_insert_eq.
        -- injection Hd as -> ->. left. by exists pre, r', post.
      * right. apply Forall_cons in Hp as [Hr Hp]. split; [|done].
        destruct (row_kept link_idx r); [|done].
        rewrite lookup_insert_ne; [done|]. by apply Hr.
Qed.

(** C3.  On a source sheet whose header holds the key column, the Mapping
    Builder issues the one read, raises no error whatever the rows are, and
    returns the mapping of the kept rows: a row with no more cells than the
    key index or the status index is left out, so is a row whose trimmed key
    is empty, and a key is mapped to the trimmed status of the last kept row
    that carries it. *)
Theorem build_q4_mapping_rows (ws : worksheet) header data link_idx :
  ws_cells ws = header :: data →
  Py.index Q4_LINK_HEADER header = Some link_idx →
  ∃ mapping,
    build_q4_mapping ws = ([GetAllValues (ws_sheet ws)], Ok mapping)
    ∧ mapping = mapping_of_rows link_idx data
    ∧ ∀ k v, mapping !! k = Some v ↔
        ∃ pre r post, data = pre ++ r :: post
          ∧ row_kept link_idx r = true
          ∧ row_entry link_idx r = (k, v)
          ∧ later_rows_miss link_idx k post.
Proof.
  intros Hcells Hidx.
  exists (foldl (mapping_step_pure link_idx) ∅ data). split_and!.
  - unfold build_q4_mapping, get_all_values. rewrite Hcells. simpl.
    rewrite Hidx. simpl.
    rewrite (for_fold_pure _ _ (mapping_step_pure link_idx))
      by apply mapping_step_is_pure.
    done.
  - unfold mapping_of_rows.
    by rewrite foldl_mapping_step_entries, foldl_insert_list_to_map.
  - intros k v. rewrite foldl_mapping_step_lookup. split.
    + intros [H|[H _]]; [done|]. by rewrite lookup_empty in H.
    + intros H. by left.
Qed.

Lemma build_q4_mapping_rows_witness :
  let header := "Github Links" :: replicate 13 "h" in
  let row k v := k :: replicate 12 "" ++ [v] in
  let data := [row " a " "x"; ["short"]; row "" "y"; row "a" " valid "] in
  ∃ mapping,
    build_q4_mapping {| ws_sheet := Q4; ws_cells := header :: data |}
    = ([GetAllValues Q4], Ok mapping)
    ∧ mapping = mapping_of_rows 0 data
    ∧ ∀ k v, mapping !! k = Some v ↔
        ∃ pre r post, data = pre ++ r :: post
          ∧ row_kept 0 r = true
          ∧ row_entry 0 r = (k, v)
          ∧ later_rows_miss 0 k post.
Proof.
  intros header row data.
  apply (build_q4_mapping_rows
           {| ws_sheet := Q4; ws_cells := header :: data |} header data 0);
    reflexivity.
Defined.

(** * Schema Reconciler: [ensure_status_column] *)

Section Positions.
Implicit Types (header : list string) (label : string).

Lemma positions_from_notin n label header :
  label ∉ header → positions_from n label header = [].
Proof.
  revert n. induction header as [|h header IH]; intros n Hn; [done|].
  simpl. apply not_elem_of_cons in Hn as [Hne Hn].
  rewrite decide_False by done. by apply IH.
Qed.

Lemma positions_from_once n label header j :
  NoDup header → header !! j = Some label →
  positions_from n label header = [n + j].
Proof.
  revert n j. induction header as [|h header IH]; intros n j Hnd Hj; [done|].
  apply NoDup_cons in Hnd as [Hh Hnd]. simpl.
  destruct j as [|j]; simpl in Hj.
  - injection Hj as ->. rewrite decide_True by done.
    rewrite positions_from_notin by done. f_equal. lia.
  - rewrite decide_False.
    + rewrite (IH (S n) j) by done. f_equal. lia.
    + intros ->. apply Hh. by eapply list_elem_of_lookup_2.
Qed.

Lemma positions_from_snoc n label header :
  label ∉ header →
  positions_from n label (header ++ [label]) = [n + length header].
Proof.
  revert n. induction header as [|h header IH]; intros n Hn; simpl.
  - rewrite decide_True by done. f_equal. lia.
  - apply not_elem_of_cons in Hn as [Hne Hn].
    rewrite decide_False by done. rewrite IH by done. f_equal. lia.
Qed.

Lemma contains_true {A} `{EqDecision A} (x : A) l :
  Py.contains x l = true ↔ x ∈ l.
Proof. unfold Py.contains. apply bool_decide_eq_true. Qed.
End Positions.

(** C4.  When the target label is already in the (duplicate-free) header,
    the Schema Reconciler returns its zero-based index and issues no call.
    When it is absent, the first call issues exactly one column append and
    one header-cell write and returns the new last index; a second call, on
    the table the first returned, issues nothing and returns the same
    index, so the two calls together issue that one append and that one
    write. *)
Theorem ensure_status_column_idempotent (ws : worksheet) (df : DataFrame) :
  (Q2_STATUS_HEADER ∈ columns df → NoDup (columns df) →
     ∃ i, columns df !! i = Some Q2_STATUS_HEADER
          ∧ ensure_status_column ws df = ([], Ok (df, LocInt i)))
  ∧ (Q2_STATUS_HEADER ∉ columns df →
     ∃ df', let i := length (columns df) in
       ensure_status_column ws df
       = ([AddCols (ws_sheet ws) 1;
           UpdateCell (ws_sheet ws) 1 (i + 1) Q2_STATUS_HEADER],
          Ok (df', LocInt i))
       ∧ columns df' !! i = Some Q2_STATUS_HEADER
       ∧ ensure_status_column ws df' = ([], Ok (df', LocInt i))
       ∧ ensure_twice ws df
         = ([AddCols (ws_sheet ws) 1;
             UpdateCell (ws_sheet ws) 1 (i + 1) Q2_STATUS_HEADER],
            Ok (LocInt i, LocInt i, df'))).
Proof.
  split.
  - intros Hin Hnd.
    apply list_elem_of_lookup in Hin as [i Hi]. exists i. split; [done|].
    unfold ensure_status_column.
    rewrite (proj2 (contains_true _ _)) by by eapply list_elem_of_lookup_2.
    unfold get_loc, positions. by rewrite (positions_from_once 0 _ _ i).
  - intros Hnot.
    set (df' := df_set_column df Q2_STATUS_HEADER "").
    assert (columns df' = columns df ++ [Q2_STATUS_HEADER]) as Hcols.
    { unfold df', df_set_column, positions.
      by rewrite positions_from_notin. }
    assert (ensure_status_column ws df
       = ([AddCols (ws_sheet ws) 1;
           UpdateCell (ws_sheet ws) 1 (length (columns df) + 1)
             Q2_STATUS_HEADER],
          Ok (df', LocInt (length (columns df))))) as H1.
    { unfold ensure_status_column.
      destruct (Py.contains Q2_STATUS_HEADER (columns df)) eqn:E.
      { by apply contains_true in E. }
      simpl. do 3 f_equal. f_equal. lia. }
    assert (ensure_status_column ws df'
            = ([], Ok (df', LocInt (length (columns df))))) as H2.
    { unfold ensure_status_column.
      rewrite (proj2 (contains_true _ _)).
      2:{ rewrite Hcols. apply elem_of_app. right.
          by apply list_elem_of_singleton. }
      unfold get_loc, positions. rewrite Hcols.
      by rewrite positions_from_snoc. }
    exists df'. simpl. split_and!; [done| |done|].
    + rewrite Hcols. by rewrite lookup_app_r, Nat.sub_diag.
    + unfold ensure_twice. rewrite H1. simpl. by rewrite H2.
Qed.

Lemma ensure_status_column_idempotent_witness :
  let ws := {| ws_sheet := Q2; ws_cells := [] |} in
  let df_has := {| columns := ["Link"; "Validity status"];
                   rows := [[Some "a"; Some "valid"]] |} in
  let df_new := {| columns := ["Link"]; rows := [[Some "a"]] |} in
  (∃ i, columns df_has !! i = Some Q2_STATUS_HEADER
        ∧ ensure_status_column ws df_has = ([], Ok (df_has, LocInt i)))
  ∧ (∃ df',
       ensure_status_column ws df_new
       = ([AddCols Q2 1; UpdateCell Q2 1 2 Q2_STATUS_HEADER],
          Ok (df', LocInt 1))
       ∧ columns df' !! 1 = Some Q2_STATUS_HEADER
       ∧ ensure_status_column ws df' = ([], Ok (df', LocInt 1))
       ∧ ensure_twice ws df_new
         = ([AddCols Q2 1; UpdateCell Q2 1 2 Q2_STATUS_HEADER],
            Ok (LocInt 1, LocInt 1, df'))).
Proof.
  intros ws df_has df_new. split.
  - apply (proj1 (ensure_status_column_idempotent ws df_has)).
    + apply (bool_decide_unpack _). reflexivity.
    + apply (bool_decide_unpack _). reflexivity.
  - apply (proj2 (ensure_status_column_idempotent ws df_new)).
    apply (bool_decide_unpack _). reflexivity.
Defined.

(** * A missing key column ends the run: [main] *)

Lemma index_None {A} `{EqDecision A} (x : A) l :
  Py.index x l = None ↔ x ∉ l.
Proof.
  induction l as [|y l IH]; simpl.
  - split; [intros _; apply not_elem_of_nil|done].
  - rewrite not_elem_of_cons. destruct (decide (y = x)) as [->|Hne].
    + split; [done|]. by intros [? _].
    + destruct (Py.index x l); simpl; split; try done.
      * intros [_ H]. by apply IH in H.
      * intros _. split; [done|]. by apply IH.
Qed.

(** C8.  When the key-column name is not in the header of the source
    sheet, the run ends in [sys.exit] and the calls issued before that hold
    no column append, no header-cell write and no range write, on either
    sheet: with the key file in place they are the sign-in, the opening of
    the source sheet and the one read of it, and the diagnostic names the
    column. *)
Theorem main_missing_key_column (key_exists : bool)
    (q4_header : list string) (q4_data q2_cells : list (list string)) :
  Q4_LINK_HEADER ∉ q4_header →
  let r := main key_exists (q4_header :: q4_data) q2_cells in
  (∃ msg, result r = Exit msg)
  ∧ Forall (λ c, is_mutation c = false) (trace r)
  ∧ (key_exists = true →
     r = ([Authorize; OpenWorksheet Q4; GetAllValues Q4],
          Exit "[ERROR] Column 'Github Links' not found in Q4 sheet.")).
Proof.
  intros Habs r.
  assert (key_exists = true →
     r = ([Authorize; OpenWorksheet Q4; GetAllValues Q4],
          Exit "[ERROR] Column 'Github Links' not found in Q4 sheet.")) as Hr.
  { intros ->. unfold r, main, build_q4_mapping, get_all_values. simpl.
    apply index_None in Habs. by rewrite Habs. }
  destruct key_exists.
  - rewrite Hr by done. split_and!; [by eexists| |done].
    repeat constructor.
  - unfold r, main. simpl. split_and!; [by eexists|constructor|done].
Qed.

Lemma main_missing_key_column_witness :
  let r := main true [["Links"; "Status"]; ["k"; "v"]] [["Link"]; ["k"]] in
  (∃ msg, result r = Exit msg)
  ∧ Forall (λ c, is_mutation c = false) (trace r)
  ∧ (true = true →
     r = ([Authorize; OpenWorksheet Q4; GetAllValues Q4],
          Exit "[ERROR] Column 'Github Links' not found in Q4 sheet.")).
Proof.
  intros r.
  apply (main_missing_key_column true ["Links"; "Status"] [["k"; "v"]]
           [["Link"]; ["k"]]).
  apply (bool_decide_unpack _). reflexivity.
Defined.

(** * Chunked Batch Writer: the range-write loop of [main] *)

Section Chunks.
Context {A : Type}.
Implicit Types (l : list A) (c n k : nat).

Lemma range_length n c : length (Py.range 0 n c) = (n + (c - 1)) / c.
Proof.
  unfold Py.range. rewrite length_fmap, length_seq. by rewrite Nat.sub_0_r.
Qed.

Lemma range_lookup n c k i :
  Py.range 0 n c !! k = Some i → i = k * c ∧ k < (n + (c - 1)) / c.
Proof.
  unfold Py.range. rewrite Nat.sub_0_r, list_lookup_fmap.
  intros H. apply fmap_Some in H as (j & Hj & ->).
  apply lookup_seq in Hj as [-> ?]. done.
Qed.

Lemma ceil_div_lt n c k : 0 < c → k < (n + (c - 1)) / c → k * c < n.
Proof.
  intros Hc Hk.
  pose proof (Nat.Div0.mul_div_le (n + (c - 1)) c). nia.
Qed.

Lemma ceil_div_ge n c : 0 < c → n ≤ (n + (c - 1)) / c * c.
Proof.
  intros Hc.
  pose proof (Nat.div_mod_eq (n + (c - 1)) c).
  pose proof (Nat.mod_upper_bound (n + (c - 1)) c). nia.
Qed.

Lemma slice_chunk l i c : Py.slice l i (i + c) = take c (drop i l).
Proof. unfold Py.slice. f_equal. lia. Qed.

Lemma chunks_concat c l N :
  length l ≤ N * c →
  concat ((λ k, take c (drop (k * c) l)) <$> seq 0 N) = l.
Proof.
  revert l. induction N as [|N IH]; intros l Hl.
  - simpl in *. by destruct l; [|simpl in Hl; lia].
  - rewrite <-cons_seq, <-fmap_S_seq. simpl. rewrite <-list_fmap_compose.
    assert (concat ((λ k, take c (drop (k * c) l)) ∘ S <$> seq 0 N)
            = drop c l) as ->; [|apply take_drop].
    rewrite <-(IH (drop c l)) by (rewrite length_drop; lia).
    f_equal. apply list_fmap_ext. intros _ k _. simpl.
    by rewrite drop_drop.
Qed.
End Chunks.

Lemma df_column_length df label vs :
  df_column df label = mret vs → length vs = df_len df.
Proof.
  unfold df_column, df_len.
  destruct (positions label (columns df)) as [|j [|]]; try done.
  intros [= <-]. by rewrite length_fmap.
Qed.

Lemma push_updates_calls ws colLtr df c vs :
  0 < c → df_column df Q2_STATUS_HEADER = mret vs →
  push_updates ws colLtr df c
  = (chunk_call (ws_sheet ws) colLtr vs c <$> Py.range 0 (length vs) c, Ok tt).
Proof.
  intros Hc Hcol. unfold push_updates.
  rewrite <-(df_column_length _ _ _ Hcol). rewrite Hcol, run_bind_ret.
  rewrite bool_decide_eq_false_2 by lia.
  apply for_each_calls. intros i. unfold update, chunk_call.
  by rewrite slice_chunk, <-fmap_drop, <-fmap_take, length_fmap.
Qed.

Lemma chunk_length {A} (l : list A) c k :
  0 < c → k * c < length l →
  1 ≤ length (take c (drop (k * c) l)) ≤ c.
Proof. intros Hc Hk. rewrite length_take, length_drop. lia. Qed.

(** C1.  For a chunk size [c > 0] and a status column holding the [n]
    values [vs], the writer issues [ceil(n / c)] calls and ends normally.
    The call number [k] (from 0) is for the chunk at value-offset
    [o = k * c]: it carries exactly the values [vs[o : o + c]], between 1
    and [c] of them, one per row, and its range runs from row [o + 2] to row
    [o + 2 + len(chunk) - 1] in the column's letters.  The values of the
    calls, concatenated in call order, are the original sequence.  For
    [n = 5000] and [c = 2000] the ranges are those of rows 2..2001,
    2002..4001 and 4002..5001, in that order. *)
Theorem push_updates_chunks ws colLtr df c vs :
  0 < c → df_column df Q2_STATUS_HEADER = mret vs →
  let n := length vs in
  ∃ calls,
    push_updates ws colLtr df c = (calls, Ok tt)
    ∧ length calls = (n + (c - 1)) / c
    ∧ (∀ k call, calls !! k = Some call →
         let o := k * c in
         let chunk := take c (drop o vs) in
         o < n ∧ 1 ≤ length chunk ≤ c
         ∧ call = Update (ws_sheet ws) ((λ v, [v]) <$> chunk)
                    (range_address colLtr (o + 2) (o + 2 + length chunk - 1)))
    ∧ concat (call_values <$> calls) = (λ v, [v]) <$> vs
    ∧ (n = 5000 → c = 2000 →
       call_range <$> calls
       = [range_address colLtr 2 2001; range_address colLtr 2002 4001;
          range_address colLtr 4002 5001]).
Proof.
  intros Hc Hcol n.
  exists (chunk_call (ws_sheet ws) colLtr vs c <$> Py.range 0 n c).
  split_and!.
  - by apply push_updates_calls.
  - by rewrite length_fmap, range_length.
  - intros k call Hk o chunk. rewrite list_lookup_fmap in Hk.
    apply fmap_Some in Hk as (i & Hi & ->).
    apply range_lookup in Hi as [-> Hlt].
    apply ceil_div_lt in Hlt; [|done].
    split_and!; [done|by apply chunk_length..|done].
  - rewrite <-list_fmap_compose. unfold Py.range.
    rewrite <-list_fmap_compose, Nat.sub_0_r.
    erewrite list_fmap_ext.
    + apply (chunks_concat c ((λ v, [v]) <$> vs)).
      rewrite length_fmap. by apply ceil_div_ge.
    + intros _ k _. simpl. by rewrite fmap_take, fmap_drop.
  - intros Hn ->. rewrite <-list_fmap_compose. unfold Py.range.
    rewrite <-list_fmap_compose, Hn.
    change ((5000 - 0 + (2000 - 1)) / 2000) with 3.
    simpl. unfold chunk_call. simpl.
    rewrite !length_take, !length_drop. fold n. rewrite Hn.
    repeat f_equal.
Qed.

Lemma push_updates_chunks_witness :
  let ws := {| ws_sheet := Q2; ws_cells := [] |} in
  let df3 := {| columns := ["Link"; "Validity status"];
                rows := [[Some "a"; Some "valid"]; [Some "b"; Some ""];
                         [Some "c"; Some "revoked"]] |} in
  let df5000 := {| columns := ["Validity status"];
                   rows := replicate 5000 [Some "valid"] |} in
  (∃ calls,
     push_updates ws "B" df3 2 = (calls, Ok tt)
     ∧ length calls = 2
     ∧ concat (call_values <$> calls)
       = [[Some "valid"]; [Some ""]; [Some "revoked"]])
  ∧ ∃ calls,
      push_updates ws "A" df5000 2000 = (calls, Ok tt)
      ∧ call_range <$> calls = ["A2:A2001"; "A2002:A4001"; "A4002:A5001"].
Proof.
  intros ws df3 df5000. split.
  - destruct (push_updates_chunks ws "B" df3 2
                [Some "valid"; Some ""; Some "revoked"])
      as (calls & Hrun & Hlen & _ & Hcat & _); [lia|reflexivity|].
    exists calls. split_and!; [exact Hrun|exact Hlen|exact Hcat].
  - destruct (push_updates_chunks ws "A" df5000 2000
                (replicate 5000 (Some "valid")))
      as (calls & Hrun & _ & _ & _ & Hrng); [lia|reflexivity|].
    exists calls. split; [exact Hrun|].
    rewrite Hrng; [reflexivity| |reflexivity].
    apply length_replicate.
Defined.

(** * Merge Engine: the matching loop of [main] *)

Section Index.
Context {A : Type} `{EqDecision A}.
Implicit Types (x : A) (l : list A).

Lemma index_Some x l j : Py.index x l = Some j → l !! j = Some x.
Proof.
  revert j. induction l as [|y l IH]; intros j; simpl; [done|].
  destruct (decide (y = x)) as [->|Hne].
  - by intros [= <-].
  - intros H. apply fmap_Some in H as (j' & Hj' & ->). by apply IH.
Qed.

Lemma index_is_Some x l : x ∈ l → is_Some (Py.index x l).
Proof.
  intros Hin. destruct (Py.index x l) eqn:E; [done|].
  by apply index_None in E.
Qed.
End Index.

Lemma positions_index header label j :
  NoDup header → Py.index label header = Some j →
  positions label header = [j].
Proof.
  intros Hnd Hj. apply index_Some in Hj.
  unfold positions. by rewrite (positions_from_once 0 label header j).
Qed.

Lemma positions_index_None header label :
  Py.index label header = None → positions label header = [].
Proof. intros H. apply index_None in H. by apply positions_from_notin. Qed.

Lemma row_get_strip_key header row :
  NoDup header → key_readable header row →
  row_get_strip header row Q2_LINK_HEADER "" = mret (row_key header row).
Proof.
  intros Hnd Hkey. unfold row_get_strip, row_key, key_readable, cell in *.
  destruct (Py.index Q2_LINK_HEADER header) as [j|] eqn:Hj.
  - rewrite (positions_index _ _ j) by done. simpl in *.
    destruct Hkey as [s Hs].
    { apply index_Some in Hj. by eapply list_elem_of_lookup_2. }
    rewrite Hs. destruct (row !! j) as [[s'|]|]; simplify_eq/=. done.
  - by rewrite positions_index_None.
Qed.

Lemma df_set_at_status header rws idx status j :
  NoDup header → Py.index Q2_STATUS_HEADER header = Some j →
  df_set_at {| columns := header; rows := rws |} idx Q2_STATUS_HEADER status
  = {| columns := header; rows := alter (<[j := Some status]>) idx rws |}.
Proof.
  intros Hnd Hj. unfold df_set_at. simpl.
  by rewrite (positions_index _ _ j).
Qed.

Lemma merged_row_Some header mapping row status j :
  mapping !! row_key header row = Some status →
  Py.index Q2_STATUS_HEADER header = Some j →
  merged_row header mapping row = <[j := Some status]> row.
Proof. intros Hm Hj. unfold merged_row. by rewrite Hm, Hj. Qed.

Lemma merged_row_None header mapping row :
  mapping !! row_key header row = None →
  merged_row header mapping row = row.
Proof. intros Hm. unfold merged_row. by rewrite Hm. Qed.

Lemma merge_loop header mapping j suffix pre m :
  NoDup header → Py.index Q2_STATUS_HEADER header = Some j →
  Forall (key_readable header) suffix →
  for_fold (imap (λ i, pair (length pre + i)) suffix)
    (merge_step header mapping)
    ({| columns := header; rows := pre ++ suffix |}, m)
  = mret ({| columns := header;
             rows := pre ++ (merged_row header mapping <$> suffix) |},
          m + length (filter (matched header mapping) suffix)).
Proof.
  intros Hnd Hj. revert pre m.
  induction suffix as [|row suffix IH]; intros pre m Hkey.
  - simpl. by rewrite Nat.add_0_r.
  - apply Forall_cons in Hkey as [Hrow Hkey].
    rewrite imap_cons. simpl.
    rewrite row_get_strip_key by done.
    pose proof (IH (pre ++ [merged_row header mapping row])) as IH'.
    rewrite <-!(assoc_L (++)) in IH'. simpl in IH'.
    assert (imap ((λ i, pair (length pre + i)) ∘ S) suffix
            = imap (λ i, pair (length (pre ++ [merged_row header mapping row])
                                       + i))
                suffix) as ->.
    { apply imap_ext. intros i x _. simpl. f_equal.
      rewrite length_app. simpl. lia. }
    rewrite run_bind_ret.
    destruct (mapping !! row_key header row) as [status|] eqn:Hm.
    + rewrite filter_cons, decide_True by (unfold matched; by rewrite Hm).
      simpl.
      rewrite df_set_at_status with (j := j) by done.
      rewrite alter_app_r. simpl.
      rewrite (merged_row_Some _ _ _ status j) in IH' |- * by done.
      rewrite IH' by done. by rewrite <-Nat.add_assoc.
    + rewrite filter_cons, decide_False
        by (unfold matched; rewrite Hm; by intros [??]).
      simpl.
      rewrite merged_row_None in IH' |- * by done.
      rewrite IH' by done. done.
Qed.





Lemma merge_statuses_rows df mapping :
  NoDup (columns df) → Q2_STATUS_HEADER ∈ columns df →
  Forall (key_readable (columns df)) (rows df) →
  merge_statuses df mapping
  = mret ({| columns := columns df;
             rows := merged_row (columns df) mapping <$> rows df |},
          length (filter (matched (columns df) mapping) (rows df))).
Proof.
  intros Hnd Hin Hkey. destruct (index_is_Some _ _ Hin) as [j Hj].
  unfold merge_statuses.
  pose proof (merge_loop (columns df) mapping j (rows df) [] 0 Hnd Hj Hkey)
    as H.
  simpl in H. destruct df as [header rws]. simpl in *. exact H.
Qed.





(** The key of a row is read, or reading it raises. *)
Lemma row_get_strip_cases header row :
  NoDup header →
  (key_readable header row
   ∧ row_get_strip header row Q2_LINK_HEADER "" = mret (row_key header row))
  ∨ (¬ key_readable header row
     ∧ row_get_strip header row Q2_LINK_HEADER "" = raise AttributeError).
Proof.
  intros Hnd. unfold row_get_strip, key_readable, cell.
  destruct (Py.index Q2_LINK_HEADER header) as [j|] eqn:Hj.
  - rewrite (positions_index _ _ j) by done. simpl.
    assert (Q2_LINK_HEADER ∈ header) as Hin.
    { apply index_Some in Hj. by eapply list_elem_of_lookup_2. }
    destruct (row !! j) as [[s|]|] eqn:Hrow; simpl.
    + left. split; [by eexists|]. unfold row_key, cell. rewrite Hj. simpl.
      by rewrite Hrow.
    + right. split; [|done]. intros H. by destruct (H Hin).
    + right. split; [|done]. intros H. by destruct (H Hin).
  - left. apply index_None in Hj as Hn. split; [done|].
    rewrite positions_index_None by done. unfold row_key, cell.
    by rewrite Hj.
Qed.

(** The loop dies at the first row whose key cannot be read. *)
Lemma merge_loop_raises header mapping j suffix pre m :
  NoDup header → Py.index Q2_STATUS_HEADER header = Some j →
  Exists (λ row, ¬ key_readable header row) suffix →
  for_fold (imap (λ i, pair (length pre + i)) suffix)
    (merge_step header mapping)
    ({| columns := header; rows := pre ++ suffix |}, m)
  = ([], Raise AttributeError).
Proof.
  intros Hnd Hj. revert pre m.
  induction suffix as [|row suffix IH]; intros pre m Hex.
  { by apply Exists_nil in Hex. }
  rewrite imap_cons. simpl.
  destruct (row_get_strip_cases header row Hnd) as [[Hkey ->]|[Hkey ->]];
    [|done].
  apply Exists_cons in Hex as [Hbad|Hex]; [done|].
  rewrite run_bind_ret.
  assert (imap ((λ i, pair (length pre + i)) ∘ S) suffix
          = imap (λ i, pair (length (pre ++ [merged_row header mapping row])
                                     + i))
              suffix) as ->.
  { apply imap_ext. intros i x _. simpl. f_equal.
    rewrite length_app. simpl. lia. }
  pose proof (IH (pre ++ [merged_row header mapping row])) as IH'.
  rewrite <-!(assoc_L (++)) in IH'. simpl in IH'.
  destruct (mapping !! row_key header row) as [status|] eqn:Hm.
  - simpl. rewrite df_set_at_status with (j := j) by done.
    rewrite alter_app_r. simpl.
    rewrite (merged_row_Some _ _ _ status j) in IH' |- * by done.
    by rewrite IH'.
  - simpl. rewrite merged_row_None in IH' |- * by done. by rewrite IH'.
Qed.

(** X14.  On a table with a duplicate-free header that holds the target
    column, one row without a string under the key column, wherever it
    stands, makes the merge die with [AttributeError]; no table is
    returned. *)
Theorem merge_statuses_unreadable_key (df : DataFrame)
    (link_to_status : gmap string string) :
  NoDup (columns df) → Q2_STATUS_HEADER ∈ columns df →
  Exists (λ row, ¬ key_readable (columns df) row) (rows df) →
  merge_statuses df link_to_status = ([], Raise AttributeError).
Proof.
  intros Hnd Hin Hex. destruct (index_is_Some _ _ Hin) as [j Hj].
  unfold merge_statuses.
  pose proof (merge_loop_raises (columns df) link_to_status j (rows df) [] 0
                Hnd Hj Hex) as H.
  simpl in H. destruct df as [header rws]. simpl in *. exact H.
Qed.

Lemma merge_statuses_unreadable_key_witness :
  merge_statuses
    {| columns := ["Owner"; "Link"; "Validity status"];
       rows := [[Some "x"; Some "a"; Some ""]; [Some "y"; None; Some ""]] |}
    (<["a" := "valid"]> ∅)
  = ([], Raise AttributeError).
Proof.
  apply merge_statuses_unreadable_key.
  - apply (bool_decide_unpack _). reflexivity.
  - apply (bool_decide_unpack _). reflexivity.
  - apply Exists_cons_tl, Exists_cons_hd. intros H.
    destruct H as [s Hs]; [apply (bool_decide_unpack _); reflexivity|].
    discriminate Hs.
Defined.

(** The end-to-end scenario of the specification: keys repoA, repoC and
    repoB against the mapping repoA -> valid, repoB -> revoked. *)
Example merge_end_to_end :
  let df := {| columns := ["Link"; "Validity status"];
               rows := [[Some "repoA"; Some ""]; [Some "repoC"; Some ""];
                        [Some "repoB"; Some ""]] |} in
  let link_to_status : gmap string string :=
    <["repoB" := "revoked"]> (<["repoA" := "valid"]> ∅) in
  merge_statuses df link_to_status
  = ([], Ok ({| columns := ["Link"; "Validity status"];
                rows := [[Some "repoA"; Some "valid"]; [Some "repoC"; Some ""];
                         [Some "repoB"; Some "revoked"]] |}, 2)).
Proof. vm_compute. reflexivity. Qed.

(** The end-to-end scenario on whole sheets: the source sheet holds
    ("repoA", "valid"), ("repoB", "revoked") and ("", "x") in its key and
    status columns, the destination sheet the keys repoA, repoC, repoB and
    no status column yet.  The run appends the column, names it, and writes
    "valid", "" and "revoked" to rows 2..4 of column B in one call. *)
Example main_end_to_end :
  let source k v := k :: replicate 12 "" ++ [v] in
  main true
    [source "Github Links" "Status"; source "repoA" "valid";
     source "repoB" "revoked"; source "" "x"]
    [["Link"]; ["repoA"]; ["repoC"]; ["repoB"]]
  = ([Authorize; OpenWorksheet Q4; GetAllValues Q4;
      OpenWorksheet Q2; GetAllValues Q2;
      AddCols Q2 1; UpdateCell Q2 1 2 "Validity status";
      Update Q2 [[Some "valid"]; [Some ""]; [Some "revoked"]] "B2:B4"],
     Ok tt).
Proof. vm_compute. reflexivity. Qed.

(** * More on [match.py] *)

(** ** The calls of a run *)

Section RunSafe.
Context {C : Type} (P : C → Prop).

Lemma safe_bind {A B} (m : @run C A) (f : A → run B) :
  safe P m → (∀ a, safe P (f a)) → safe P (m ≫= f).
Proof.
  unfold safe, trace, result, mbind, run_bind, bind.
  destruct m as [t [a| | |]]; simpl; intros [Ht Hr] Hf; try done.
  specialize (Hf a). destruct (f a) as [t' r']. simpl in *.
  destruct Hf as [Ht' Hr']. split; [|done]. by apply Forall_app.
Qed.

Lemma safe_for_fold {X S} (xs : list X) (body : S → X → @run C S) s :
  (∀ s x, safe P (body s x)) → safe P (for_fold xs body s).
Proof.
  intros Hb. revert s. induction xs as [|x xs IH]; intros s; simpl.
  - split; [constructor|done].
  - by apply (safe_bind (body s x) (for_fold xs body)).
Qed.

Lemma safe_ret {A} (a : A) : safe P (mret a : @run C A).
Proof. split; [constructor|done]. Qed.

Lemma safe_raise {A} e : safe P (raise e : @run C A).
Proof. split; [constructor|done]. Qed.

Lemma safe_exit {A} msg : safe P (sys_exit msg : @run C A).
Proof. split; [constructor|done]. Qed.

Lemma safe_emit c : P c → safe P (emit c).
Proof. intros Hc. split; [by repeat constructor|done]. Qed.
End RunSafe.

Lemma safe_mapping_step P link_idx m r : safe P (mapping_step link_idx m r).
Proof.
  unfold mapping_step. case_bool_decide; [apply safe_ret|].
  destruct (r !! link_idx), (r !! Q4_STATUS_COL_N); try apply safe_raise.
  destruct (Py.str_truthy _); apply safe_ret.
Qed.

Lemma safe_build_q4_mapping q4_cells :
  safe writes_q2_only
    (build_q4_mapping {| ws_sheet := Q4; ws_cells := q4_cells |}).
Proof.
  unfold build_q4_mapping. apply safe_bind.
  - apply safe_bind; [by apply safe_emit|intros _; apply safe_ret].
  - intros [|header data]; [apply safe_raise|].
    destruct (Py.index _ _); [|apply safe_exit].
    apply safe_for_fold. intros. apply safe_mapping_step.
Qed.

Lemma safe_ws_to_df s cells :
  safe writes_q2_only (ws_to_df {| ws_sheet := s; ws_cells := cells |}).
Proof.
  unfold ws_to_df. apply safe_bind.
  - apply safe_bind; [by apply safe_emit|intros _; apply safe_ret].
  - intros [|header data]; [apply safe_raise|].
    unfold pd_DataFrame. case_bool_decide; [apply safe_ret|apply safe_raise].
Qed.

Lemma safe_ensure_status_column cells df :
  safe writes_q2_only
    (ensure_status_column {| ws_sheet := Q2; ws_cells := cells |} df).
Proof.
  unfold ensure_status_column. destruct (Py.contains _ _).
  - apply safe_bind; [|intros; apply safe_ret].
    unfold get_loc. destruct (positions _ _) as [|? [|]];
      [apply safe_raise|apply safe_ret..].
  - apply safe_bind; [by apply safe_emit|intros _].
    apply safe_bind; [by apply safe_emit|intros _]. apply safe_ret.
Qed.

Lemma safe_merge_statuses P df mapping : safe P (merge_statuses df mapping).
Proof.
  unfold merge_statuses. apply safe_for_fold. intros [df' m] [idx row].
  unfold merge_step. apply safe_bind.
  - unfold row_get_strip. destruct (positions _ _) as [|? [|]];
      [apply safe_ret| |apply safe_raise].
    destruct (row !! _) as [[|]|]; [apply safe_ret|apply safe_raise..].
  - intros link. destruct (mapping !! link); apply safe_ret.
Qed.

Lemma safe_push_updates cells colLtr df chunk :
  safe writes_q2_only
    (push_updates {| ws_sheet := Q2; ws_cells := cells |} colLtr df chunk).
Proof.
  unfold push_updates. apply safe_bind.
  - unfold df_column. destruct (positions _ _) as [|? [|]];
      [apply safe_raise|apply safe_ret|apply safe_raise].
  - intros column. case_bool_decide; [apply safe_raise|].
    apply safe_for_fold. intros _ i. by apply safe_emit.
Qed.

(** X2.  Whatever the inputs, a run of [match.py] never hangs, and every
    call of it that changes a grid (a column append, a header-cell write, a
    range write) is made on the destination sheet: the source sheet is
    only read. *)
Theorem main_writes_destination_only (key_exists : bool)
    (q4_cells q2_cells : list (list string)) :
  Forall writes_q2_only (trace (main key_exists q4_cells q2_cells))
  ∧ result (main key_exists q4_cells q2_cells) ≠ Hang.
Proof.
  change (safe writes_q2_only (main key_exists q4_cells q2_cells)).
  unfold main. destruct key_exists; [|apply safe_exit]. simpl negb. cbv iota.
  apply safe_bind; [by apply safe_emit|intros _].
  apply safe_bind; [by apply safe_emit|intros _].
  apply safe_bind; [apply safe_build_q4_mapping|intros mapping].
  apply safe_bind; [by apply safe_emit|intros _].
  apply safe_bind; [apply safe_ws_to_df|intros df].
  apply safe_bind; [apply safe_ensure_status_column|intros [df' zero]].
  apply safe_bind; [destruct zero; [apply safe_ret|apply safe_raise]|].
  intros one.
  apply safe_bind; [apply safe_merge_statuses|intros [df'' matches]].
  apply safe_bind; [|intros colLtr; apply safe_push_updates].
  destruct (col_letter_loop_enough (Z.to_nat (Z.of_nat one)) (Z.of_nat one) "")
    as [s Hs]; [lia..|].
  unfold col_letter. rewrite Hs. apply safe_ret.
Qed.

(** ** [ws_to_df] *)

Section IndexApp.
Context {A : Type} `{EqDecision A}.
Implicit Types (x : A) (l : list A).

Lemma index_app_l x l l' : x ∈ l → Py.index x (l ++ l') = Py.index x l.
Proof.
  induction l as [|y l IH]; intros Hin; [by apply elem_of_nil in Hin|].
  simpl. destruct (decide (y = x)); [done|].
  apply elem_of_cons in Hin as [?|Hin]; [done|]. by rewrite IH.
Qed.

Lemma index_app_r x l l' :
  x ∉ l → Py.index x (l ++ l') = (λ j, length l + j) <$> Py.index x l'.
Proof.
  induction l as [|y l IH]; intros Hn; simpl.
  - by destruct (Py.index x l').
  - apply not_elem_of_cons in Hn as [Hne Hn].
    rewrite decide_False by done. rewrite IH by done.
    by destruct (Py.index x l').
Qed.

Lemma index_lt x l j : Py.index x l = Some j → j < length l.
Proof. intros H. apply index_Some in H. by eapply lookup_lt_Some. Qed.
End IndexApp.

Lemma max_list_const (ls : list nat) n :
  ls ≠ [] → Forall (λ k, k = n) ls → max_list ls = n.
Proof.
  induction ls as [|k ls IH]; [done|]. intros _ Hall.
  apply Forall_cons in Hall as [-> Hall]. simpl.
  destruct ls as [|k' ls]; [simpl; lia|]. rewrite IH; [lia|done|done].
Qed.

Lemma max_list_le (ls : list nat) k : k ∈ ls → k ≤ max_list ls.
Proof.
  induction ls as [|k' ls IH]; intros Hin; [by apply elem_of_nil in Hin|].
  simpl. apply elem_of_cons in Hin as [->|Hin]; [lia|].
  specialize (IH Hin). lia.
Qed.

(** A rectangular sheet is read as it is, every cell a string. *)
Lemma ws_to_df_rect (ws : worksheet) header data :
  ws_cells ws = header :: data →
  Forall (λ r, length r = length header) data →
  ws_to_df ws
  = ([GetAllValues (ws_sheet ws)],
     Ok {| columns := header;
           rows := (λ r : list string, Some <$> r) <$> data |}).
Proof.
  unfold ws_to_df, get_all_values. intros -> Hrect. simpl.
  unfold pd_DataFrame. rewrite bool_decide_eq_true_2.
  - do 3 f_equal. apply list_fmap_ext. intros i r Hr.
    rewrite (proj1 (Forall_lookup _ _) Hrect i r Hr), Nat.sub_diag.
    simpl. by rewrite app_nil_r.
  - destruct data as [|r data]; [by left|right].
    apply max_list_const; [done|]. by apply Forall_fmap.
Qed.

(** X3.  [ws_to_df] issues the one read.  An empty sheet (no header row)
    is an [IndexError].  A rectangular sheet becomes the table of its
    header and its rows, cell for cell.  Whenever a table is returned, its
    labels are the first row of the sheet, it has one row per further row
    of the sheet, and every row has one cell per label. *)
Theorem ws_to_df_table (ws : worksheet) :
  (ws_cells ws = [] →
     ws_to_df ws = ([GetAllValues (ws_sheet ws)], Raise IndexError))
  ∧ (∀ header data, ws_cells ws = header :: data →
       Forall (λ r, length r = length header) data →
       ws_to_df ws
       = ([GetAllValues (ws_sheet ws)],
          Ok {| columns := header; rows := (λ r : list string, Some <$> r) <$> data |}))
  ∧ (∀ t df, ws_to_df ws = (t, Ok df) →
       t = [GetAllValues (ws_sheet ws)]
       ∧ (∃ data, ws_cells ws = columns df :: data
                  ∧ length (rows df) = length data)
       ∧ Forall (λ row, length row = length (columns df)) (rows df)).
Proof.
  split_and!.
  - unfold ws_to_df, get_all_values. intros ->. done.
  - intros header data Hcells Hrect. by apply ws_to_df_rect.
  - unfold ws_to_df, get_all_values.
    intros t df. destruct (ws_cells ws) as [|header data]; [done|]. simpl.
    unfold pd_DataFrame. case_bool_decide as Hw; [|done].
    intros [= <- <-]. simpl. split_and!; [done| |].
    + exists data. by rewrite length_fmap.
    + apply Forall_fmap, Forall_forall. intros r Hr. simpl.
      rewrite length_app, length_fmap, length_replicate.
      destruct Hw as [->|Hw]; [by apply elem_of_nil in Hr|].
      assert (length r ≤ length header); [|lia].
      rewrite <-Hw. apply max_list_le. by apply list_elem_of_fmap_2.
Qed.

Lemma ws_to_df_table_witness :
  let ws := {| ws_sheet := Q2;
               ws_cells := [["Link"; "Owner"]; ["a"; "x"]; ["b"]] |} in
  ∃ df, ws_to_df ws = ([GetAllValues Q2], Ok df)
        ∧ (∃ data, ws_cells ws = columns df :: data
                   ∧ length (rows df) = length data)
        ∧ Forall (λ row, length row = length (columns df)) (rows df).
Proof.
  intros ws. eexists. split; [reflexivity|].
  eapply (proj2 (proj2 (proj2 (ws_to_df_table ws)) _ _ eq_refl)).
Defined.

(** ** [ensure_status_column] keeps the table well formed *)

(** The table with the status column holding [""] added on the right. *)
Lemma df_set_column_absent df label value :
  label ∉ columns df →
  df_set_column df label value
  = {| columns := columns df ++ [label];
       rows := (λ r, r ++ [Some value]) <$> rows df |}.
Proof.
  intros Hn. unfold df_set_column, positions.
  by rewrite positions_from_notin.
Qed.

Lemma ensure_status_column_present ws df j :
  NoDup (columns df) → Py.index Q2_STATUS_HEADER (columns df) = Some j →
  ensure_status_column ws df = ([], Ok (df, LocInt j)).
Proof.
  intros Hnd Hj. unfold ensure_status_column.
  rewrite (proj2 (contains_true _ _)).
  2:{ apply index_Some in Hj. by eapply list_elem_of_lookup_2. }
  unfold get_loc. by rewrite (positions_index _ _ j).
Qed.

Lemma ensure_status_column_absent ws df :
  Q2_STATUS_HEADER ∉ columns df →
  ensure_status_column ws df
  = ([AddCols (ws_sheet ws) 1;
      UpdateCell (ws_sheet ws) 1 (length (columns df) + 1) Q2_STATUS_HEADER],
     Ok (df_set_column df Q2_STATUS_HEADER "", LocInt (length (columns df)))).
Proof.
  intros Hn. unfold ensure_status_column.
  destruct (Py.contains Q2_STATUS_HEADER (columns df)) eqn:E.
  { by apply contains_true in E. }
  simpl. do 3 f_equal. f_equal. lia.
Qed.

Lemma cell_app header extra row tail label :
  label ∈ header → length row = length header →
  cell (header ++ extra) (row ++ tail) label = cell header row label.
Proof.
  intros Hin Hlen. unfold cell. rewrite index_app_l by done.
  destruct (Py.index label header) as [j|] eqn:Hj; [|done]. simpl.
  rewrite lookup_app_l; [done|]. rewrite Hlen. by eapply index_lt.
Qed.

Lemma cell_snoc header row label v :
  label ∉ header → length row = length header →
  cell (header ++ [label]) (row ++ [v]) label = v.
Proof.
  intros Hn Hlen. unfold cell. rewrite index_app_r by done. simpl.
  rewrite decide_True by done. simpl.
  rewrite Nat.add_0_r, <-Hlen, lookup_app_r, Nat.sub_diag by lia. done.
Qed.

(** Adding a label that is absent keeps the table well formed and puts
    the label last. *)
Lemma df_set_column_wf df label value :
  table_wf df → label ∉ columns df →
  table_wf (df_set_column df label value)
  ∧ length (rows (df_set_column df label value)) = length (rows df)
  ∧ Py.index label (columns (df_set_column df label value))
    = Some (length (columns df)).
Proof.
  intros [Hnd Hrect] Hn. rewrite df_set_column_absent by done. simpl.
  split_and!.
  - split; simpl.
    + apply NoDup_app. split_and!; [done| |apply NoDup_singleton].
      intros x Hx ->%list_elem_of_singleton. done.
    + apply Forall_fmap. eapply Forall_impl; [exact Hrect|].
      intros r Hr. simpl. rewrite !length_app, Hr. done.
  - by rewrite length_fmap.
  - rewrite index_app_r by done. simpl. rewrite decide_True by done.
    simpl. f_equal. lia.
Qed.

(** X4.  On a well-formed table, a call that ends normally returns a
    well-formed table with the same number of rows and the integer position
    of the status label in it.  Every cell under a label the table already
    had is unchanged, and when the status label was absent every row holds
    the empty string under it. *)
Theorem ensure_status_column_keeps_table ws df t df' i :
  table_wf df → ensure_status_column ws df = (t, Ok (df', i)) →
  table_wf df'
  ∧ length (rows df') = length (rows df)
  ∧ (∃ j, i = LocInt j ∧ Py.index Q2_STATUS_HEADER (columns df') = Some j)
  ∧ (∀ k row, rows df !! k = Some row →
       ∃ row', rows df' !! k = Some row'
         ∧ (∀ label, label ∈ columns df →
              cell (columns df') row' label = cell (columns df) row label)
         ∧ (Q2_STATUS_HEADER ∉ columns df →
              cell (columns df') row' Q2_STATUS_HEADER = Some "")).
Proof.
  intros [Hnd Hrect] Hrun.
  destruct (decide (Q2_STATUS_HEADER ∈ columns df)) as [Hin|Hn].
  - destruct (index_is_Some _ _ Hin) as [j Hj].
    rewrite (ensure_status_column_present _ _ j) in Hrun by done.
    injection Hrun as <- <- <-. split_and!; [done|done|by exists j|].
    intros k row Hk. exists row. by split_and!.
  - rewrite ensure_status_column_absent in Hrun by done.
    injection Hrun as <- <- <-.
    destruct (df_set_column_wf df Q2_STATUS_HEADER "") as (Hwf & Hl & Hj);
      [done..|].
    split_and!; [done|done|by eexists|].
    rewrite df_set_column_absent by done. simpl.
    intros k row Hk. exists (row ++ [Some ""]).
    assert (length row = length (columns df)) as Hlen.
    { by eapply (proj1 (Forall_lookup _ _)) in Hrect. }
    split_and!.
    + by rewrite list_lookup_fmap, Hk.
    + intros label Hlabel. by apply cell_app.
    + intros _. by apply cell_snoc.
Qed.

Lemma ensure_status_column_keeps_table_witness :
  let ws := {| ws_sheet := Q2; ws_cells := [] |} in
  let df := {| columns := ["Link"; "Owner"];
               rows := [[Some "a"; Some "x"]; [Some "b"; Some "y"]] |} in
  ∃ t df' i, ensure_status_column ws df = (t, Ok (df', i))
    ∧ table_wf df'
    ∧ length (rows df') = length (rows df)
    ∧ (∃ j, i = LocInt j ∧ Py.index Q2_STATUS_HEADER (columns df') = Some j).
Proof.
  intros ws df. eexists _, _, _. split; [reflexivity|].
  edestruct (ensure_status_column_keeps_table ws df) as (H1 & H2 & H3 & _).
  - split; [apply (bool_decide_unpack _); reflexivity|repeat constructor].
  - reflexivity.
  - by split_and!.
Defined.

(** ** A whole run *)

Lemma build_q4_mapping_run ws header data link_idx :
  ws_cells ws = header :: data →
  Py.index Q4_LINK_HEADER header = Some link_idx →
  build_q4_mapping ws
  = ([GetAllValues (ws_sheet ws)], Ok (mapping_of_rows link_idx data)).
Proof.
  intros Hcells Hidx. unfold build_q4_mapping, get_all_values.
  rewrite Hcells. simpl. rewrite Hidx. simpl.
  rewrite (for_fold_pure _ _ (mapping_step_pure link_idx))
    by apply mapping_step_is_pure.
  unfold mapping_of_rows.
  by rewrite foldl_mapping_step_entries, foldl_insert_list_to_map.
Qed.

Lemma df_column_merged header mapping rws j :
  NoDup header → Py.index Q2_STATUS_HEADER header = Some j →
  Forall (λ row, length row = length header) rws →
  df_column {| columns := header; rows := merged_row header mapping <$> rws |}
    Q2_STATUS_HEADER
  = mret (status_after header mapping <$> rws).
Proof.
  intros Hnd Hj Hrect. unfold df_column. simpl.
  rewrite (positions_index _ _ j) by done.
  rewrite <-list_fmap_compose. unfold mret, run_ret, ret. do 2 f_equal.
  apply list_fmap_ext. intros k row Hk. simpl.
  assert (length row = length header) as Hlen.
  { by eapply (proj1 (Forall_lookup _ _)) in Hrect. }
  unfold status_after, merged_row, cell. rewrite Hj. simpl.
  destruct (mapping !! row_key header row) as [status|]; [|done].
  rewrite list_lookup_insert_eq; [done|]. rewrite Hlen. by eapply index_lt.
Qed.

Lemma key_readable_wf header row :
  length row = length header →
  Forall is_Some row → key_readable header row.
Proof.
  intros Hlen Hall Hin. unfold cell.
  destruct (index_is_Some _ _ Hin) as [j Hj]. rewrite Hj. simpl.
  destruct (lookup_lt_is_Some_2 row j) as [c Hc].
  { rewrite Hlen. by eapply index_lt. }
  rewrite Hc. simpl. by eapply (proj1 (Forall_lookup _ _)) in Hall.
Qed.

(** How the steps of [main] chain when each ends normally. *)
Lemma main_steps q4_cells q2_cells t1 mapping t2 df0 t3 df1 j df2 matches
    colLtr t4 :
  build_q4_mapping {| ws_sheet := Q4; ws_cells := q4_cells |}
    = (t1, Ok mapping) →
  ws_to_df {| ws_sheet := Q2; ws_cells := q2_cells |} = (t2, Ok df0) →
  ensure_status_column {| ws_sheet := Q2; ws_cells := q2_cells |} df0
    = (t3, Ok (df1, LocInt j)) →
  merge_statuses df1 mapping = ([], Ok (df2, matches)) →
  col_letter (Z.of_nat (j + 1)) = Some colLtr →
  push_updates {| ws_sheet := Q2; ws_cells := q2_cells |} colLtr df2
    UPLOAD_CHUNK = (t4, Ok tt) →
  main true q4_cells q2_cells
  = ([Authorize; OpenWorksheet Q4] ++ t1 ++ [OpenWorksheet Q2] ++ t2
     ++ t3 ++ t4, Ok tt).
Proof.
  intros H1 H2 H3 H4 H5 H6. unfold main.
  rewrite H1, H2. simpl. rewrite H3. simpl. rewrite H4. simpl.
  rewrite H5. simpl. by rewrite H6.
Qed.

(** X1.  A whole run of [match.py] on well-formed sheets: the key file
    is there, the header of the source sheet holds the key column, and the
    destination sheet is rectangular with pairwise distinct labels.  The
    run ends normally.  It signs in, opens and reads the source sheet, opens
    and reads the destination sheet, appends and names the status column
    when the destination lacks it (and only then), and writes the status
    column in chunks of [UPLOAD_CHUNK] rows, in the letters of that column.
    The value written for a row is the source mapping's value for the row's
    trimmed key when there is one, and otherwise the value the row had (the
    empty string in a column just added). *)
Theorem main_run (q4_header : list string) (q4_data : list (list string))
    (link_idx : nat) (q2_header : list string)
    (q2_data : list (list string)) :
  Py.index Q4_LINK_HEADER q4_header = Some link_idx →
  NoDup q2_header →
  Forall (λ r, length r = length q2_header) q2_data →
  let mapping := mapping_of_rows link_idx q4_data in
  let df0 := {| columns := q2_header;
                rows := (λ r : list string, Some <$> r) <$> q2_data |} in
  let present := bool_decide (Q2_STATUS_HEADER ∈ q2_header) in
  let df1 := if present then df0
             else df_set_column df0 Q2_STATUS_HEADER "" in
  let schema := if present then []
                else [AddCols Q2 1;
                      UpdateCell Q2 1 (length q2_header + 1)
                        Q2_STATUS_HEADER] in
  let vs := status_after (columns df1) mapping <$> rows df1 in
  ∃ j colLtr,
    Py.index Q2_STATUS_HEADER (columns df1) = Some j
    ∧ col_letter (Z.of_nat (j + 1)) = Some colLtr
    ∧ main true (q4_header :: q4_data) (q2_header :: q2_data)
      = ([Authorize; OpenWorksheet Q4; GetAllValues Q4;
          OpenWorksheet Q2; GetAllValues Q2]
         ++ schema
         ++ (chunk_call Q2 colLtr vs UPLOAD_CHUNK
             <$> Py.range 0 (length q2_data) UPLOAD_CHUNK),
         Ok tt).
Proof.
  intros Hq4 Hnd Hrect mapping df0 present df1 schema vs.
  set (ws_q2 := {| ws_sheet := Q2; ws_cells := q2_header :: q2_data |}).
  assert (table_wf df0) as Hwf0.
  { split; [done|]. simpl. apply Forall_fmap.
    eapply Forall_impl; [exact Hrect|]. intros r Hr. simpl.
    by rewrite length_fmap. }
  assert (Forall (Forall is_Some) (rows df0)) as Hsome0.
  { simpl. apply Forall_fmap, Forall_forall. intros r _. simpl.
    apply Forall_fmap, Forall_forall. intros. by eexists. }
  assert (∃ j, ensure_status_column ws_q2 df0 = (schema, Ok (df1, LocInt j))
               ∧ Py.index Q2_STATUS_HEADER (columns df1) = Some j
               ∧ table_wf df1
               ∧ Forall (Forall is_Some) (rows df1)
               ∧ length (rows df1) = length q2_data)
    as (j & Hens & Hj & [Hnd1 Hrect1] & Hsome1 & Hlen1).
  { unfold df1, schema, present. case_bool_decide as Hin.
    - destruct (index_is_Some _ _ Hin) as [j Hj]. exists j.
      split_and!; [by apply ensure_status_column_present|done..|].
      simpl. by rewrite length_fmap.
    - exists (length q2_header).
      destruct (df_set_column_wf df0 Q2_STATUS_HEADER "")
        as (Hwf1 & Hl & Hj); [done..|].
      split_and!; [by apply ensure_status_column_absent|done|done| |].
      + rewrite df_set_column_absent by done. simpl.
        apply Forall_fmap. eapply Forall_impl; [exact Hsome0|].
        intros r Hr. simpl. apply Forall_app. split; [done|].
        by repeat constructor.
      + rewrite Hl. simpl. by rewrite length_fmap. }
  destruct (col_letter_loop_enough (Z.to_nat (Z.of_nat (j + 1)))
              (Z.of_nat (j + 1)) "") as [colLtr HcolLtr]; [lia..|].
  fold (col_letter (Z.of_nat (j + 1))) in HcolLtr.
  exists j, colLtr. split; [done|]. split; [done|].
  assert (Q2_STATUS_HEADER ∈ columns df1) as Hin1.
  { apply index_Some in Hj. by eapply list_elem_of_lookup_2. }
  erewrite (main_steps _ _ [GetAllValues Q4] mapping [GetAllValues Q2] df0
              schema df1 j _ _ colLtr); [done|..].
  - by apply build_q4_mapping_run with (header := q4_header).
  - by apply ws_to_df_rect.
  - done.
  - apply merge_statuses_rows; [done..|].
    apply Forall_forall. intros row Hrow.
    apply key_readable_wf.
    + by eapply (proj1 (Forall_forall _ _)) in Hrect1.
    + by eapply (proj1 (Forall_forall _ _)) in Hsome1.
  - done.
  - rewrite <-Hlen1.
    replace (length (rows df1)) with (length vs)
      by (unfold vs; by rewrite length_fmap).
    apply push_updates_calls; [unfold UPLOAD_CHUNK; lia|].
    by apply df_column_merged with (j := j).
Qed.

Lemma main_run_witness :
  let source k v := k :: replicate 12 "" ++ [v] in
  ∃ j colLtr,
    col_letter (Z.of_nat (j + 1)) = Some colLtr
    ∧ main true
        [source "Github Links" "Status"; source " repoA" "valid "]
        [["Link"; "Owner"]; ["repoA"; "x"]; ["repoC"; "y"]]
      = ([Authorize; OpenWorksheet Q4; GetAllValues Q4;
          OpenWorksheet Q2; GetAllValues Q2;
          AddCols Q2 1; UpdateCell Q2 1 3 Q2_STATUS_HEADER]
         ++ (chunk_call Q2 colLtr [Some "valid"; Some ""] UPLOAD_CHUNK
             <$> Py.range 0 2 UPLOAD_CHUNK),
         Ok tt).
Proof.
  intros source.
  destruct (main_run (source "Github Links" "Status")
              [source " repoA" "valid "] 0 ["Link"; "Owner"]
              [["repoA"; "x"]; ["repoC"; "y"]])
    as (j & colLtr & _ & HcolLtr & Hmain).
  - reflexivity.
  - apply (bool_decide_unpack _). reflexivity.
  - repeat constructor.
  - exists j, colLtr. split; [exact HcolLtr|exact Hmain].
Defined.

(** ** [build_q4_mapping]: outcomes and keys *)

Section Strip.
Implicit Types (s : string) (c : ascii).

Lemma lstrip_cases s :
  Py.lstrip s = "" ∨ ∃ c t, Py.lstrip s = String c t ∧ Py.isspace c = false.
Proof.
  induction s as [|c s IH]; [by left|]. simpl.
  destruct (Py.isspace c) eqn:E; [done|]. right. by exists c, s.
Qed.

Lemma rstrip_cons_nonspace c t :
  Py.isspace c = false → Py.rstrip (String c t) = String c (Py.rstrip t).
Proof. intros Hc. simpl. rewrite Hc. by destruct (Py.rstrip t). Qed.

Lemma rstrip_idem s : Py.rstrip (Py.rstrip s) = Py.rstrip s.
Proof.
  induction s as [|c s IH]; [done|]. simpl.
  destruct (Py.rstrip s) as [|c' r] eqn:Hr.
  - destruct (Py.isspace c) eqn:Hc; [done|]. simpl. by rewrite Hc.
  - change (Py.rstrip (String c (String c' r))) with
      (match Py.rstrip (String c' r) with
       | "" => if Py.isspace c then "" else String c ""
       | r0 => String c r0
       end).
    by rewrite IH.
Qed.

Lemma strip_idem s : Py.strip (Py.strip s) = Py.strip s.
Proof.
  unfold Py.strip. destruct (lstrip_cases s) as [->|(c & t & -> & Hc)];
    [done|].
  rewrite rstrip_cons_nonspace by done. simpl. rewrite Hc.
  rewrite rstrip_cons_nonspace by done. by rewrite rstrip_idem.
Qed.
End Strip.

Lemma build_q4_mapping_Ok_inv ws t mapping :
  build_q4_mapping ws = (t, Ok mapping) →
  ∃ header data link_idx,
    ws_cells ws = header :: data
    ∧ Py.index Q4_LINK_HEADER header = Some link_idx
    ∧ mapping = foldl (mapping_step_pure link_idx) ∅ data.
Proof.
  unfold build_q4_mapping, get_all_values.
  destruct (ws_cells ws) as [|header data]; [done|]. simpl.
  destruct (Py.index Q4_LINK_HEADER header) as [link_idx|] eqn:Hidx; [|done].
  simpl.
  rewrite (for_fold_pure _ _ (mapping_step_pure link_idx))
    by apply mapping_step_is_pure.
  intros [= _ <-]. by exists header, data, link_idx.
Qed.

(** X5.  A mapping that [build_q4_mapping] returns has no empty key, and
    its keys and values are trimmed: trimming one again gives it back.  So
    a destination row whose key is blank is never matched. *)
Theorem build_q4_mapping_trimmed ws t mapping :
  build_q4_mapping ws = (t, Ok mapping) →
  mapping !! "" = None
  ∧ ∀ k v, mapping !! k = Some v → Py.strip k = k ∧ Py.strip v = v.
Proof.
  intros H. apply build_q4_mapping_Ok_inv in H
    as (header & data & link_idx & _ & _ & ->).
  assert (∀ k v, foldl (mapping_step_pure link_idx) ∅ data !! k = Some v →
                 k ≠ "" ∧ Py.strip k = k ∧ Py.strip v = v) as Hall.
  { intros k v Hk. apply foldl_mapping_step_lookup in Hk
      as [(pre & r & post & _ & Hkept & He & _)|[Hk _]];
      [|by rewrite lookup_empty in Hk].
    unfold row_entry in He. injection He as <- <-.
    unfold row_kept in Hkept. apply andb_true_iff in Hkept as [_ Ht].
    split_and!; [|apply strip_idem..].
    intros E. by rewrite E in Ht. }
  split.
  - destruct (foldl _ _ _ !! "") as [v|] eqn:E; [|done].
    by apply Hall in E as [? _].
  - intros k v Hk. by apply Hall in Hk as (_ & ? & ?).
Qed.

Lemma build_q4_mapping_trimmed_witness :
  let row k v := k :: replicate 12 "" ++ [v] in
  let ws := {| ws_sheet := Q4;
               ws_cells := [row "Github Links" "Status";
                            row "  a " " valid "; row "   " "x"] |} in
  ∃ mapping, build_q4_mapping ws = ([GetAllValues Q4], Ok mapping)
    ∧ mapping !! "" = None
    ∧ ∀ k v, mapping !! k = Some v → Py.strip k = k ∧ Py.strip v = v.
Proof.
  intros row ws. eexists. split; [reflexivity|].
  apply (build_q4_mapping_trimmed ws [GetAllValues Q4]). reflexivity.
Defined.

(** X6.  [build_q4_mapping] issues exactly one call, the read of its
    sheet, whatever the outcome.  On a sheet with no row at all it dies with
    [IndexError]; on a sheet whose header lacks the key column it ends in
    [sys.exit] with the diagnostic; on every other sheet it returns a
    mapping. *)
Theorem build_q4_mapping_outcome ws :
  trace (build_q4_mapping ws) = [GetAllValues (ws_sheet ws)]
  ∧ match ws_cells ws with
    | [] => result (build_q4_mapping ws) = Raise IndexError
    | header :: data =>
        if Py.contains Q4_LINK_HEADER header
        then ∃ mapping, result (build_q4_mapping ws) = Ok mapping
        else result (build_q4_mapping ws)
             = Exit "[ERROR] Column 'Github Links' not found in Q4 sheet."
    end.
Proof.
  unfold build_q4_mapping, get_all_values.
  destruct (ws_cells ws) as [|header data]; [done|]. simpl.
  destruct (Py.contains Q4_LINK_HEADER header) eqn:Hc.
  - apply contains_true, index_is_Some in Hc as [link_idx Hidx].
    rewrite Hidx. simpl.
    rewrite (for_fold_pure _ _ (mapping_step_pure link_idx))
      by apply mapping_step_is_pure.
    split; [done|]. by eexists.
  - assert (Py.index Q4_LINK_HEADER header = None) as ->; [|done].
    apply index_None. intros Hin. apply contains_true in Hin. congruence.
Qed.

(** ** [col_letter] as bijective base 26 *)

Section ColLetterMore.
Local Open Scope Z_scope.

(** The loop prepends the label of the index to the accumulator. *)
Lemma col_letter_loop_acc fuel n res :
  col_letter_loop fuel n res = (λ p, p +:+ res) <$> col_letter_loop fuel n "".
Proof.
  revert n res. induction fuel as [|fuel IH]; intros n res; simpl.
  - by destruct (n =? 0).
  - destruct (n =? 0); [done|].
    destruct (Z.div_eucl (n - 1) 26) as [q r].
    rewrite (IH q (String _ res)), (IH q (String _ "")).
    destruct (col_letter_loop fuel q "") as [p|]; [|done].
    simpl. by rewrite append_snoc.
Qed.

Lemma div_eucl_26_unique q r :
  0 ≤ r < 26 → Z.div_eucl (26 * q + r) 26 = (q, r).
Proof.
  intros Hr. destruct (Z.div_eucl (26 * q + r) 26) as [q' r'] eqn:E.
  apply div_eucl_26 in E as [Heq Hr']. f_equal; lia.
Qed.

Lemma col_letter_step q r :
  0 ≤ q → 1 ≤ r ≤ 26 →
  col_letter (26 * q + r)
  = (λ p, p +:+ String (chr (64 + r)) "") <$> col_letter q.
Proof.
  intros Hq Hr.
  destruct (col_letter_loop_enough (Z.to_nat q) q "") as [p Hp]; [lia..|].
  unfold col_letter at 2. rewrite Hp. simpl.
  apply (col_letter_loop_le (S (Z.to_nat q))); [lia|].
  simpl. destruct (26 * q + r =? 0) eqn:E; [apply Z.eqb_eq in E; lia|].
  replace (26 * q + r - 1) with (26 * q + (r - 1)) by lia.
  rewrite div_eucl_26_unique by lia.
  rewrite col_letter_loop_acc, Hp. simpl.
  by replace (65 + (r - 1)) with (64 + r) by lia.
Qed.

(** Splitting off the last character of a non-empty string. *)
Lemma string_snoc_inv (s : string) :
  s = "" ∨ ∃ p c, s = p +:+ String c "".
Proof.
  induction s as [|a s IH]; [by left|]. right.
  destruct IH as [->|(p & c & ->)].
  - by exists "", a.
  - by exists (String a p), c.
Qed.

Lemma app_length (p q : string) :
  String.length (p +:+ q) = (String.length p + String.length q)%nat.
Proof. induction p; str_simpl; simpl; [done|]. by f_equal. Qed.

Lemma is_upper_chr c :
  is_upper c = true →
  1 ≤ Z.of_nat (nat_of_ascii c) - 64 ≤ 26
  ∧ chr (64 + (Z.of_nat (nat_of_ascii c) - 64)) = c.
Proof.
  unfold is_upper. intros H. apply andb_true_iff in H as [H1 H2].
  apply Nat.leb_le in H1, H2. split; [lia|].
  unfold chr. replace (64 + (Z.of_nat (nat_of_ascii c) - 64)) with
    (Z.of_nat (nat_of_ascii c)) by lia.
  by rewrite Nat2Z.id, ascii_nat_embedding.
Qed.

Lemma letters_value_from_ge acc s :
  all_upper s = true → 0 ≤ acc → acc ≤ letters_value_from acc s.
Proof.
  revert acc. induction s as [|c s IH]; intros acc Hu Hacc; simpl; [lia|].
  simpl in Hu. apply andb_true_iff in Hu as [Hc Hs].
  apply is_upper_chr in Hc as [Hc _].
  etrans; [|apply IH; [done|lia]]. lia.
Qed.

Lemma letters_value_nonneg s : all_upper s = true → 0 ≤ letters_value s.
Proof. intros Hu. by apply letters_value_from_ge. Qed.

Lemma col_letter_of_letters_value s :
  all_upper s = true → col_letter (letters_value s) = Some s.
Proof.
  remember (String.length s) as n eqn:Hn. revert s Hn.
  induction n as [|n IH]; intros s Hn Hu.
  - by destruct s.
  - destruct (string_snoc_inv s) as [->|(p & c & ->)]; [done|].
    rewrite app_length in Hn. simpl in Hn.
    rewrite all_upper_snoc in Hu. apply andb_true_iff in Hu as [Hp Hc].
    unfold letters_value. rewrite letters_value_from_snoc.
    fold (letters_value p).
    apply is_upper_chr in Hc as [Hr Hchr].
    replace (letters_value p * 26 + (Z.of_nat (nat_of_ascii c) - 64))
      with (26 * letters_value p + (Z.of_nat (nat_of_ascii c) - 64)) by lia.
    rewrite col_letter_step; [|by apply letters_value_nonneg|done].
    rewrite IH; [|lia|done]. simpl. by rewrite Hchr.
Qed.
End ColLetterMore.

(** X7.  The label of [26 * q + r], for [q >= 0] and [1 <= r <= 26], is
    the label of [q] followed by the [r]-th capital letter. *)
Theorem col_letter_last_letter (q r : Z) :
  (0 ≤ q)%Z → (1 ≤ r ≤ 26)%Z →
  ∃ p, col_letter q = Some p
       ∧ col_letter (26 * q + r) = Some (p +:+ String (chr (64 + r)) "").
Proof.
  intros Hq Hr.
  destruct (col_letter_loop_enough (Z.to_nat q) q "") as [p Hp]; [lia..|].
  exists p. split; [done|]. rewrite col_letter_step by done.
  unfold col_letter. by rewrite Hp.
Qed.

Lemma col_letter_last_letter_witness :
  ∃ p, col_letter 27 = Some p
       ∧ col_letter (26 * 27 + 3) = Some (p +:+ String (chr (64 + 3)) "").
Proof. apply (col_letter_last_letter 27 3); lia. Defined.

(** X8.  [col_letter] and reading a label in bijective base 26 are
    inverse to each other: the label of [n >= 0] is made of capital letters
    and reads back as [n], and every string of capital letters is the label
    of the number it reads as. *)
Theorem col_letter_round_trip :
  (∀ n : Z, (0 ≤ n)%Z →
     ∃ s, col_letter n = Some s ∧ all_upper s = true ∧ letters_value s = n)
  ∧ (∀ s, all_upper s = true →
       (0 ≤ letters_value s)%Z ∧ col_letter (letters_value s) = Some s).
Proof.
  split.
  - intros n Hn.
    destruct (col_letter_loop_enough (Z.to_nat n) n "") as [s Hs]; [lia..|].
    exists s. split; [done|].
    apply col_letter_value in Hs as (? & ? & _); done.
  - intros s Hs. split; [by apply letters_value_nonneg|].
    by apply col_letter_of_letters_value.
Qed.

Lemma col_letter_round_trip_witness :
  (∃ s, col_letter 703 = Some s ∧ all_upper s = true ∧ letters_value s = 703%Z)
  ∧ (0 ≤ letters_value "XFD")%Z ∧ col_letter (letters_value "XFD") = Some "XFD".
Proof.
  destruct col_letter_round_trip as [H1 H2]. split.
  - apply H1. lia.
  - apply H2. reflexivity.
Defined.

(** * Ingestion: [parse_line], [load_findings], [upload_dataframe] *)

Import Upload.

Lemma parse_line_keys loads raw t r :
  parse_line loads raw = (t, Ok (Some r)) → r.*1 = FIELDS.
Proof.
  unfold parse_line.
  destruct (negb (Py.str_truthy (Py.strip raw))); [done|].
  destruct (loads (Py.strip raw)) as [obj|]; [|done].
  intros H.
  repeat (apply bind_Ok_inv in H as (? & ? & ? & _ & H & _)).
  injection H as _ <-. reflexivity.
Qed.

Lemma load_step_keys loads records raw t records' :
  Forall (λ r : record, r.*1 = FIELDS) records →
  load_step loads records raw = (t, Ok records') →
  Forall (λ r : record, r.*1 = FIELDS) records'
  ∧ length records ≤ length records'.
Proof.
  intros Hall H. unfold load_step in H.
  apply bind_Ok_inv in H as (t1 & rec & t2 & Hp & H & _).
  destruct rec as [[|kv r]|].
  - injection H as _ <-. split; [done|lia].
  - injection H as _ <-. split.
    + apply Forall_app. split; [done|].
      constructor; [|done]. by eapply parse_line_keys.
    + rewrite length_app. lia.
  - injection H as _ <-. split; [done|lia].
Qed.

Lemma foldl_add_key_present acc ks :
  ks ⊆ acc → foldl add_key acc ks = acc.
Proof.
  induction ks as [|k ks IH]; intros Hsub; [done|]. simpl.
  unfold add_key at 2. rewrite bool_decide_eq_true_2.
  - apply IH. set_solver.
  - set_solver.
Qed.

Lemma union_keys_fields (records : list record) :
  records ≠ [] → Forall (λ r : record, r.*1 = FIELDS) records →
  union_keys records = FIELDS.
Proof.
  intros Hne Hall. destruct records as [|r records]; [done|].
  apply Forall_cons in Hall as [Hr Hall].
  unfold union_keys. simpl. rewrite Hr, foldl_app.
  change (foldl _ [] FIELDS) with FIELDS.
  apply (foldl_add_key_present FIELDS).
  intros k Hk. apply list_elem_of_In, in_concat in Hk as (ks & Hks & Hk).
  apply list_elem_of_In in Hks, Hk.
  apply list_elem_of_fmap in Hks as (r' & -> & Hr').
  rewrite (proj1 (Forall_forall _ _) Hall r' Hr') in Hk. done.
Qed.


Lemma py_get_silent obj key dflt : trace (py_get obj key dflt) = [].
Proof. by destruct obj. Qed.

Lemma parse_line_silent loads raw : trace (parse_line loads raw) = [].
Proof.
  unfold parse_line.
  destruct (negb (Py.str_truthy (Py.strip raw))); [done|].
  destruct (loads (Py.strip raw)) as [obj|]; [|done].
  repeat (apply bind_silent; [try apply py_get_silent|intros ?]); try done.
  destruct (truthy _); [done|apply py_get_silent].
Qed.

Lemma load_step_silent loads records raw :
  trace (load_step loads records raw) = [].
Proof.
  unfold load_step. apply bind_silent; [apply parse_line_silent|].
  by intros [[|??]|].
Qed.

Lemma load_findings_Ok loads lines t df :
  load_findings loads lines = (t, Ok df) →
  t = [] ∧ columns df = FIELDS ∧ 0 < length (rows df).
Proof.
  unfold load_findings. intros H.
  apply bind_Ok_inv in H as (t1 & records & t2 & Hf & H & ->).
  assert (Forall (λ r : record, r.*1 = FIELDS) records) as Hall.
  { revert Hf. apply for_fold_invariant; [|constructor].
    intros s x t' s' Hs Hstep. by eapply load_step_keys. }
  assert (t1 = []) as ->.
  { pose proof (for_fold_silent lines (load_step loads) []
                  (load_step_silent loads)) as Hs.
    by rewrite Hf in Hs. }
  destruct records as [|r records]; [done|].
  injection H as <- <-. split; [done|]. simpl. split.
  - by apply union_keys_fields.
  - lia.
Qed.

Lemma upload_dataframe_by_calls chunk df :
  0 < chunk →
  upload_dataframe_by chunk df
  = (Clear :: AppendRow (columns df)
     :: ((λ i, AppendRows (take chunk (drop i (rows df))))
         <$> Py.range 0 (length (rows df)) chunk),
     Ok tt).
Proof.
  intros Hc. unfold upload_dataframe_by.
  rewrite bool_decide_eq_false_2 by lia.
  rewrite (for_each_calls _ _
             (λ i, AppendRows (take chunk (drop i (rows df))))).
  - done.
  - intros i. by rewrite slice_chunk.
Qed.

Lemma apply_trace_appends g (appends : list (list (list (option json)))) :
  apply_trace g (AppendRows <$> appends) = g ++ concat appends.
Proof.
  unfold apply_trace. revert g.
  induction appends as [|a appends IH]; intros g; simpl.
  - by rewrite app_nil_r.
  - rewrite IH. by rewrite app_assoc.
Qed.

(** C9.  The upload first clears the worksheet, then appends one header
    row carrying the column labels, then appends the rows in
    [ceil(n / UPLOAD_CHUNK)] calls: the call number [k] carries the rows
    [k * UPLOAD_CHUNK] onwards, at most [UPLOAD_CHUNK] and at least one of
    them, and the calls' rows concatenated in call order are the rows of
    the table.  Whatever the worksheet held before, it holds the header row
    followed by the rows afterwards.  For the table [load_findings]
    returns, [n] is positive and the labels are the fixed field names. *)
Theorem upload_dataframe_replaces_sheet (df : DataFrame) (g : grid) :
  let n := length (rows df) in
  (∃ appends,
      upload_dataframe df
      = (Clear :: AppendRow (columns df) :: (AppendRows <$> appends), Ok tt)
      ∧ length appends = (n + (UPLOAD_CHUNK - 1)) / UPLOAD_CHUNK
      ∧ (∀ k chunk, appends !! k = Some chunk →
           chunk = take UPLOAD_CHUNK (drop (k * UPLOAD_CHUNK) (rows df))
           ∧ 1 ≤ length chunk ≤ UPLOAD_CHUNK)
      ∧ concat appends = rows df
      ∧ apply_trace g (trace (upload_dataframe df))
        = ((λ s, Some (JStr s)) <$> columns df) :: rows df)
  ∧ (∀ json_loads lines t,
       load_findings json_loads lines = (t, Ok df) →
       0 < n ∧ columns df = FIELDS).
Proof.
  intros n. split.
  2:{ intros loads lines t Hload.
      by apply load_findings_Ok in Hload as (_ & Hcols & Hn). }
  assert (0 < UPLOAD_CHUNK) as Hc by (unfold UPLOAD_CHUNK; lia).
  set (appends := (λ i, take UPLOAD_CHUNK (drop i (rows df)))
                  <$> Py.range 0 n UPLOAD_CHUNK).
  assert (upload_dataframe df
          = (Clear :: AppendRow (columns df) :: (AppendRows <$> appends),
             Ok tt))
    as Hrun.
  { unfold upload_dataframe. rewrite upload_dataframe_by_calls by done.
    unfold appends. by rewrite <-list_fmap_compose. }
  assert (concat appends = rows df) as Hcat.
  { unfold appends, Py.range. rewrite <-list_fmap_compose, Nat.sub_0_r.
    apply (chunks_concat UPLOAD_CHUNK (rows df)). by apply ceil_div_ge. }
  exists appends. split_and!.
  - done.
  - unfold appends. by rewrite length_fmap, range_length.
  - intros k chunk Hk. unfold appends in Hk. rewrite list_lookup_fmap in Hk.
    apply fmap_Some in Hk as (i & Hi & ->).
    apply range_lookup in Hi as [-> Hlt].
    apply ceil_div_lt in Hlt; [|done].
    split; [done|]. by apply chunk_length.
  - done.
  - rewrite Hrun. unfold trace, apply_trace. simpl.
    fold (apply_trace [(λ s, Some (JStr s)) <$> columns df]
            (AppendRows <$> appends)).
    by rewrite apply_trace_appends, Hcat.
Qed.

Lemma upload_dataframe_replaces_sheet_witness :
  let df := pd_DataFrame
              [[("link", JStr "l"); ("repository", JNull); ("commit", JNull);
                ("file", JNull); ("line", JInt 3); ("timestamp", JNull);
                ("email", JNull); ("detector_name", JStr "AWS");
                ("detector_type", JInt 2); ("raw_secret", JStr "s");
                ("verified", JBool true)]] in
  let g : grid := [[Some (JStr "old")]; [Some (JInt 1); None]] in
  (∃ appends,
      upload_dataframe df
      = (Clear :: AppendRow (columns df) :: (AppendRows <$> appends), Ok tt)
      ∧ concat appends = rows df
      ∧ apply_trace g (trace (upload_dataframe df))
        = ((λ s, Some (JStr s)) <$> columns df) :: rows df)
  ∧ ∃ df0, load_findings loads_atoms ["{}"; ""; "oops"] = ([], Ok df0)
           ∧ 0 < length (rows df0) ∧ columns df0 = FIELDS.
Proof.
  intros df g. split.
  - destruct (upload_dataframe_replaces_sheet df g)
      as [(appends & H1 & _ & _ & H2 & H3) _].
    exists appends. by split_and!.
  - eexists. split; [reflexivity|].
    apply (proj2 (upload_dataframe_replaces_sheet _ [])
             loads_atoms ["{}"; ""; "oops"] []).
    reflexivity.
Defined.

(** A blank line and a line the decoder refuses produce no record. *)
Lemma parse_line_skips json_loads raw :
  Py.strip raw = "" ∨ json_loads (Py.strip raw) = None →
  parse_line json_loads raw = mret None.
Proof.
  unfold parse_line. intros [->| ->]; [done|].
  by destruct (negb (Py.str_truthy (Py.strip raw))).
Qed.

(** C10.  When every line of the input is blank or refused by the decoder,
    the run ends in [sys.exit] with no call issued: no sign-in, no opening
    of the spreadsheet, no worksheet operation.  With the key file in place
    the diagnostic is the one of [load_findings]. *)
Theorem main_no_findings (json_loads : string → option json)
    (key_exists : bool) (lines : list string) (ws_exists : bool) :
  Forall (λ raw, Py.strip raw = "" ∨ json_loads (Py.strip raw) = None)
    lines →
  ∃ msg, main json_loads key_exists lines ws_exists = ([], Exit msg)
    ∧ (key_exists = true → msg = "[INFO] No findings found – exiting.").
Proof.
  intros Hlines. unfold main. destruct key_exists; simpl.
  2:{ eexists. split; [done|]. done. }
  exists "[INFO] No findings found – exiting.". split; [|done].
  assert (for_fold lines (load_step json_loads) [] = mret []) as Hf.
  { induction Hlines as [|raw lines Hraw _ IH]; [done|].
    simpl. unfold load_step at 1. rewrite parse_line_skips by done.
    rewrite run_bind_ret. simpl. by rewrite IH. }
  unfold load_findings. by rewrite Hf.
Qed.

Lemma main_no_findings_witness :
  ∃ msg, main loads_atoms true [""; "   "; "not json"; "{"] true
         = ([], Exit msg)
    ∧ (true = true → msg = "[INFO] No findings found – exiting.").
Proof.
  apply (main_no_findings loads_atoms true [""; "   "; "not json"; "{"] true).
  repeat constructor; by (left + right).
Defined.

Lemma py_get_raises obj key dflt :
  is_dict obj = false → py_get obj key dflt = raise AttributeError.
Proof. by destruct obj. Qed.

Lemma py_get_dict items key dflt :
  py_get (JDict items) key dflt = mret (default dflt (items_get items key)).
Proof. done. Qed.

(** C7, where the code departs from it.  A line that decodes to a document
    that is not a [dict] (a number, a string, a list, [null], a boolean),
    or to a [dict] whose "SourceMetadata" value is not a [dict], makes
    [parse_line] die with [AttributeError]: it neither returns a record nor
    returns [None]. *)
Theorem parse_line_raises_on_non_dict (json_loads : string → option json)
    (raw : string) (v : json) :
  Py.str_truthy (Py.strip raw) = true →
  json_loads (Py.strip raw) = Some v →
  is_dict v = false
  ∨ (∃ items w, v = JDict items
       ∧ items_get items "SourceMetadata" = Some w ∧ is_dict w = false) →
  parse_line json_loads raw = ([], Raise AttributeError).
Proof.
  intros Hraw Hv Hbad. unfold parse_line. rewrite Hraw, Hv.
  cbn [negb].
  destruct Hbad as [Hd|(items & w & -> & Hw & Hd)].
  - by rewrite (py_get_raises v "SourceMetadata" (JDict [])).
  - rewrite (py_get_dict items "SourceMetadata"), Hw.
    rewrite run_bind_ret. cbn [default from_option id].
    by rewrite (py_get_raises w "Data" (JDict [])).
Qed.

Lemma parse_line_raises_on_non_dict_witness :
  parse_line loads_atoms " null " = ([], Raise AttributeError)
  ∧ parse_line loads_atoms "[]" = ([], Raise AttributeError).
Proof.
  split.
  - apply (parse_line_raises_on_non_dict loads_atoms " null " JNull);
      [reflexivity..|by left].
  - apply (parse_line_raises_on_non_dict loads_atoms "[]" (JList []));
      [reflexivity..|by left].
Defined.

(** A [dict] without "SourceMetadata" is flattened with every field of
    the nested path absent ([None]); nothing is raised. *)
Lemma parse_line_absent_path json_loads raw items :
  Py.str_truthy (Py.strip raw) = true →
  json_loads (Py.strip raw) = Some (JDict items) →
  items_get items "SourceMetadata" = None →
  ∃ r, parse_line json_loads raw = ([], Ok (Some r))
       ∧ r.*1 = FIELDS
       ∧ Forall (λ k, items_get r k = Some JNull)
           ["link"; "repository"; "commit"; "file"; "line"; "timestamp";
            "email"].
Proof.
  intros Hraw Hv Hsm. unfold parse_line. rewrite Hraw, Hv. simpl.
  rewrite Hsm. simpl.
  destruct (truthy (default JNull (items_get items "Raw")));
    (eexists; split; [reflexivity|]; split; [reflexivity|];
     repeat constructor).
Qed.

(** * More on [upload.py] *)

Lemma py_get_sub_dict items key :
  py_get (JDict items) key (JDict [])
  = mret (default (JDict []) (items_get items key)).
Proof. done. Qed.

(** What [parse_line] does with a line that is not blank and decodes. *)
Lemma parse_line_eval (json_loads : string → option json)
    (raw : string) (obj : json) :
  Py.str_truthy (Py.strip raw) = true →
  json_loads (Py.strip raw) = Some obj →
  parse_line json_loads raw
  = match obj, github_items obj with
    | JDict top, Some gh => ([], Ok (Some (flat_record top gh)))
    | _, _ => ([], Raise AttributeError)
    end.
Proof.
  intros Hraw Hobj. unfold parse_line. rewrite Hraw, Hobj. cbn [negb].
  destruct obj as [|?|?|?|?|?|top]; try reflexivity.
  unfold github_items, sub_dict.
  rewrite (py_get_dict top "SourceMetadata"), run_bind_ret.
  destruct (default (JDict []) (items_get top "SourceMetadata"))
    as [|?|?|?|?|?|sm]; try reflexivity.
  cbn [mbind option_bind].
  rewrite (py_get_dict sm "Data"), run_bind_ret.
  destruct (default (JDict []) (items_get sm "Data"))
    as [|?|?|?|?|?|data]; try reflexivity.
  cbn [mbind option_bind].
  rewrite (py_get_dict data "Github"), run_bind_ret.
  destruct (default (JDict []) (items_get data "Github"))
    as [|?|?|?|?|?|gh]; try reflexivity.
  unfold flat_record, get_or_null.
  simpl. by destruct (truthy (default JNull (items_get top "Raw"))).
Qed.

(** X9.  On a line that is not blank and that decodes, [parse_line]
    returns a record exactly when the document is a [dict] and every
    segment of the path SourceMetadata, Data, Github that is present is one
    too; otherwise it dies with [AttributeError].  The record holds the
    seven Github fields and the three detector fields, [None] where absent,
    and as secret the "Raw" value when it is truthy and the "RawV2" value
    when not. *)
Theorem parse_line_outcome (json_loads : string → option json)
    (raw : string) (obj : json) :
  Py.str_truthy (Py.strip raw) = true →
  json_loads (Py.strip raw) = Some obj →
  parse_line json_loads raw
  = match obj, github_items obj with
    | JDict top, Some gh => ([], Ok (Some (flat_record top gh)))
    | _, _ => ([], Raise AttributeError)
    end.
Proof. apply parse_line_eval. Qed.

Lemma parse_line_outcome_witness :
  parse_line loads_atoms " {} " = ([], Ok (Some (flat_record [] [])))
  ∧ parse_line loads_atoms "true" = ([], Raise AttributeError).
Proof.
  split.
  - apply (parse_line_outcome loads_atoms " {} " (JDict [])); reflexivity.
  - apply (parse_line_outcome loads_atoms "true" (JBool true)); reflexivity.
Defined.

Lemma parse_line_cases loads raw :
  (∃ o, parse_line loads raw = ([], Ok o)) ∨ line_raises loads raw.
Proof.
  unfold line_raises.
  destruct (Py.str_truthy (Py.strip raw)) eqn:Hraw.
  2:{ left. exists None. unfold parse_line. by rewrite Hraw. }
  destruct (loads (Py.strip raw)) as [obj|] eqn:Hobj.
  2:{ left. exists None. unfold parse_line. by rewrite Hraw, Hobj. }
  rewrite (parse_line_eval loads raw obj) by done.
  destruct obj; try by right.
  destruct (github_items _); [left; by eexists|by right].
Qed.

Lemma load_step_run loads records raw o :
  parse_line loads raw = ([], Ok o) →
  load_step loads records raw
  = ([], Ok (records ++ option_list (record_of loads raw))).
Proof.
  intros H. unfold load_step, record_of. rewrite H. simpl.
  destruct o as [[|kv r]|]; simpl; by rewrite ?app_nil_r.
Qed.

Lemma load_fold_run loads lines records :
  Forall (λ raw, ∃ o, parse_line loads raw = ([], Ok o)) lines →
  for_fold lines (load_step loads) records
  = ([], Ok (records ++ omap (record_of loads) lines)).
Proof.
  intros Hall. revert records.
  induction Hall as [|raw lines [o Ho] _ IH]; intros records; simpl.
  - by rewrite app_nil_r.
  - rewrite (load_step_run _ _ _ o) by done. simpl. rewrite IH.
    destruct (record_of loads raw); simpl; by rewrite <-?(assoc_L (++)).
Qed.

Lemma load_fold_raises loads lines records :
  Exists (line_raises loads) lines →
  for_fold lines (load_step loads) records = ([], Raise AttributeError).
Proof.
  intros Hex. revert records.
  induction lines as [|raw lines IH]; intros records.
  { by apply Exists_nil in Hex. }
  simpl. destruct (parse_line_cases loads raw) as [[o Ho]|Hr].
  - rewrite (load_step_run _ _ _ o) by done. simpl.
    apply Exists_cons in Hex as [Hr|Hex].
    + unfold line_raises in Hr. congruence.
    + by rewrite IH.
  - unfold load_step. unfold line_raises in Hr. by rewrite Hr.
Qed.

(** X10.  One line that makes [parse_line] raise aborts the whole load,
    wherever it stands among the lines: [load_findings] dies with
    [AttributeError], and so does the run, before any remote call. *)
Theorem load_findings_bad_line (json_loads : string → option json)
    (key_exists : bool) (lines : list string) (ws_exists : bool) :
  Exists (line_raises json_loads) lines →
  load_findings json_loads lines = ([], Raise AttributeError)
  ∧ (key_exists = true →
     main json_loads key_exists lines ws_exists
     = ([], Raise AttributeError)).
Proof.
  intros Hex.
  assert (load_findings json_loads lines = ([], Raise AttributeError)) as H.
  { unfold load_findings. by rewrite load_fold_raises. }
  split; [done|]. intros ->. unfold main. simpl. by rewrite H.
Qed.

Lemma load_findings_bad_line_witness :
  load_findings loads_atoms ["{}"; "null"; "{}"] = ([], Raise AttributeError)
  ∧ (true = true →
     main loads_atoms true ["{}"; "null"; "{}"] true
     = ([], Raise AttributeError)).
Proof.
  apply (load_findings_bad_line loads_atoms true ["{}"; "null"; "{}"] true).
  apply Exists_cons_tl, Exists_cons_hd. reflexivity.
Defined.

Lemma record_of_keys loads raw r :
  record_of loads raw = Some r → r.*1 = FIELDS.
Proof.
  unfold record_of, result.
  destruct (parse_line loads raw) as [t [[[|kv r']|]| | |]] eqn:E; try done.
  intros [= <-]. by eapply parse_line_keys.
Qed.

(** X11.  When no line raises and at least one line gives a record, the
    table [load_findings] returns has the fixed field names as labels, one
    cell per label in every row, and exactly one row per line that gives a
    record: blank and undecodable lines add none, and no record is
    dropped. *)
Theorem load_findings_row_count (json_loads : string → option json)
    (lines : list string) :
  Forall (λ raw, ∃ o, parse_line json_loads raw = ([], Ok o)) lines →
  let records := omap (record_of json_loads) lines in
  records ≠ [] →
  ∃ df, load_findings json_loads lines = ([], Ok df)
        ∧ columns df = FIELDS
        ∧ length (rows df) = length records
        ∧ Forall (λ row, length row = length FIELDS) (rows df).
Proof.
  intros Hall records Hne. unfold load_findings.
  rewrite load_fold_run by done. simpl. fold records.
  destruct records as [|r0 rs] eqn:Hrec; [done|].
  assert (Forall (λ r : record, r.*1 = FIELDS) (r0 :: rs)) as Hkeys.
  { rewrite <-Hrec. apply Forall_forall. intros r Hr.
    apply list_elem_of_omap in Hr as (raw & _ & Hr).
    by eapply record_of_keys. }
  exists (pd_DataFrame (r0 :: rs)). split; [done|].
  unfold pd_DataFrame. rewrite union_keys_fields by done.
  cbn [columns rows]. split_and!; [done| |].
  - apply length_fmap.
  - apply Forall_fmap, Forall_forall. intros r _. cbv beta.
    apply length_fmap.
Qed.

Lemma load_findings_row_count_witness :
  ∃ df, load_findings loads_atoms ["{}"; ""; "oops"; " {} "] = ([], Ok df)
        ∧ columns df = FIELDS
        ∧ length (rows df) = 2
        ∧ Forall (λ row, length row = length FIELDS) (rows df).
Proof.
  apply (load_findings_row_count loads_atoms ["{}"; ""; "oops"; " {} "]).
  - repeat constructor; by eexists.
  - done.
Defined.

Lemma load_findings_silent loads lines :
  trace (load_findings loads lines) = [].
Proof.
  unfold load_findings. apply bind_silent.
  - apply for_fold_silent, load_step_silent.
  - by intros [|??].
Qed.

Lemma upload_dataframe_run df :
  ∃ appends,
    upload_dataframe df
    = (Clear :: AppendRow (columns df) :: (AppendRows <$> appends), Ok tt)
    ∧ concat appends = rows df.
Proof.
  exists ((λ i, take UPLOAD_CHUNK (drop i (rows df)))
          <$> Py.range 0 (length (rows df)) UPLOAD_CHUNK).
  assert (0 < UPLOAD_CHUNK) as Hc by (unfold UPLOAD_CHUNK; lia). split.
  - unfold upload_dataframe. rewrite upload_dataframe_by_calls by done.
    by rewrite <-list_fmap_compose.
  - unfold Py.range. rewrite <-list_fmap_compose, Nat.sub_0_r.
    apply (chunks_concat UPLOAD_CHUNK (rows df)). by apply ceil_div_ge.
Qed.

(** X12.  A whole run of [upload.py] with the key file in place and a
    table of findings: it ends normally; it signs in, opens the spreadsheet
    and looks the worksheet up (creating it when it is not there), clears
    it, appends the header row of field names and then the rows in chunks
    whose concatenation is the table.  Whatever the worksheet held before,
    it holds the header row followed by the rows of the table afterwards. *)
Theorem main_upload_run (json_loads : string → option json)
    (lines : list string) (ws_exists : bool) (df : DataFrame) (g : grid) :
  load_findings json_loads lines = ([], Ok df) →
  ∃ appends,
    main json_loads true lines ws_exists
    = (connect_calls ws_exists
       ++ Clear :: AppendRow FIELDS :: (AppendRows <$> appends), Ok tt)
    ∧ concat appends = rows df
    ∧ apply_trace g (trace (main json_loads true lines ws_exists))
      = ((λ s, Some (JStr s)) <$> FIELDS) :: rows df.
Proof.
  intros Hload.
  destruct (upload_dataframe_run df) as (appends & Hup & Hcat).
  pose proof (load_findings_Ok _ _ _ _ Hload) as (_ & Hcols & _).
  rewrite Hcols in Hup.
  assert (main json_loads true lines ws_exists
          = (connect_calls ws_exists
             ++ Clear :: AppendRow FIELDS :: (AppendRows <$> appends),
             Ok tt)) as Hmain.
  { unfold main. simpl. rewrite Hload. simpl. rewrite Hup.
    unfold connect_calls. by destruct ws_exists. }
  exists appends. split_and!; [done..|].
  rewrite Hmain. unfold trace, apply_trace. cbn [fst].
  rewrite foldl_app.
  assert (∀ g', foldl apply_call g' (connect_calls ws_exists) = g') as ->.
  { intros g'. unfold connect_calls. by destruct ws_exists. }
  cbn [foldl apply_call].
  fold (apply_trace [(λ s, Some (JStr s)) <$> FIELDS]
          (AppendRows <$> appends)).
  by rewrite apply_trace_appends, Hcat.
Qed.

Lemma main_upload_run_witness :
  let g : grid := [[Some (JStr "stale")]] in
  ∃ df appends,
    load_findings loads_atoms ["{}"; "oops"] = ([], Ok df)
    ∧ main loads_atoms true ["{}"; "oops"] false
      = (connect_calls false
         ++ Clear :: AppendRow FIELDS :: (AppendRows <$> appends), Ok tt)
    ∧ concat appends = rows df
    ∧ apply_trace g (trace (main loads_atoms true ["{}"; "oops"] false))
      = ((λ s, Some (JStr s)) <$> FIELDS) :: rows df.
Proof.
  intros g. exists (pd_DataFrame [flat_record [] []]).
  destruct (main_upload_run loads_atoms ["{}"; "oops"] false
              (pd_DataFrame [flat_record [] []]) g)
    as (appends & H1 & H2 & H3); [reflexivity|].
  exists appends. split; [reflexivity|]. by split_and!.
Defined.

(** X13.  Whatever the inputs, a run of [upload.py] issues a call (and so
    clears the worksheet) only when the key file is there and
    [load_findings] returned a table; in every other case, a missing key
    file, no finding, or a line that raises, the trace is empty. *)
Theorem main_clears_only_with_findings (json_loads : string → option json)
    (key_exists : bool) (lines : list string) (ws_exists : bool) :
  (∃ df, load_findings json_loads lines = ([], Ok df)) ∧ key_exists = true
  ∨ trace (main json_loads key_exists lines ws_exists) = [].
Proof.
  destruct key_exists; [|by right]. unfold main. simpl.
  pose proof (load_findings_silent json_loads lines) as Hs.
  destruct (load_findings json_loads lines) as [t [df| | |]] eqn:E;
    unfold trace in Hs; simpl in Hs; subst t.
  - left. split; [by exists df|done].
  - by right.
  - by right.
  - by right.
Qed.
